(** * ResumeFit Pro: the response-parsing and report-assembly pipeline

    A shallow embedding of [app1.py]: the three extraction rules that read a
    match percentage, a skills mapping and a cover letter out of the analysis
    text, the two document generators, the radar chart guard and the
    orchestration that ties them together.

    Python strings are sequences of Unicode code points, so a text is a list
    of code points.  Python integers are unbounded, so they are [Z]. *)

From Stdlib Require Import String Ascii.
From Stdlib Require Import Strings.Byte.
From Stdlib Require Import List ZArith NArith Lia Bool.
Import ListNotations.

Set Implicit Arguments.

(** ** Texts *)

Definition char := N.
Definition text := list char.

(** A source-code string literal as a text. *)
Definition u (s : string) : text := map N_of_ascii (list_ascii_of_string s).

Definition LF : char := 10%N.
Definition PERCENT : char := 37%N.

(** [bool(s)] for a string: the empty string is falsy. *)
Definition truthy {A : Type} (s : list A) : bool :=
  match s with [] => false | _ :: _ => true end.

(** [s.startswith(p)], returning what follows the prefix. *)
Fixpoint strip_prefix (p s : text) : option text :=
  match p, s with
  | [], _ => Some s
  | a :: p', b :: s' => if N.eqb a b then strip_prefix p' s' else None
  | _ :: _, [] => None
  end.

(** [str.isspace] on one code point, the table shared by the [\s] class of
    [re] and by [str.strip]. *)
Definition is_space (c : char) : bool :=
  ((9 <=? c) && (c <=? 13) || (28 <=? c) && (c <=? 32) ||
   (c =? 133) || (c =? 160) || (c =? 5760) ||
   (8192 <=? c) && (c <=? 8202) ||
   (c =? 8232) || (c =? 8233) || (c =? 8239) || (c =? 8287) ||
   (c =? 12288))%N.

Fixpoint lstrip (s : text) : text :=
  match s with
  | c :: s' => if is_space c then lstrip s' else s
  | [] => []
  end.

Definition rstrip (s : text) : text := rev (lstrip (rev s)).

(** [s.strip()] *)
Definition strip (s : text) : text := rstrip (lstrip s).

(** [s.split("\n")]: always at least one piece. *)
Fixpoint split_lines (s : text) : list text :=
  match s with
  | [] => [[]]
  | c :: s' =>
      if N.eqb c LF then [] :: split_lines s'
      else match split_lines s' with
           | l :: ls => (c :: l) :: ls
           | [] => [[c]]
           end
  end.

(** ** Outcomes of Python code

    A call returns a value, raises an exception, or falls outside the part of
    the language and its libraries that is modelled here.  [exn] holds
    exceptions of the class [Exception], the ones [except Exception] catches.
    What is raised outside that class ([SystemExit], [KeyboardInterrupt]) is
    not caught by the program and is not modelled: code that can raise it,
    like a payload that calls [exit()], is [Unmodelled]. *)

Inductive exn : Type :=
| SyntaxError
| TypeError
| ValueError
| AttributeError
| NameError
| UnicodeEncodeError
| LibraryError (code : N).

Inductive outcome (A : Type) : Type :=
| Returns (a : A)
| Raises (e : exn)
| Unmodelled.

Arguments Raises {A} e.
Arguments Unmodelled {A}.

Definition bind {A B : Type} (x : outcome A) (f : A -> outcome B) : outcome B :=
  match x with
  | Returns a => f a
  | Raises e => Raises e
  | Unmodelled => Unmodelled
  end.

Notation "x <- c1 ;; c2" := (bind c1 (fun x => c2))
  (at level 61, c1 at next level, right associativity).

(** A call into a library that returns or raises. *)
Definition call {A : Type} (r : exn + A) : outcome A :=
  match r with
  | inl e => Raises e
  | inr a => Returns a
  end.

Definition orelse {A : Type} (x y : option A) : option A :=
  match x with Some _ => x | None => y end.

(** ** The evaluator behind [eval(skills_match.group(1))]

    [eval] is the general expression evaluator of Python.  The part of it
    modelled here is the one a captured [{...}] payload can reach with the
    characters blank, brace, colon, comma, plus, minus, quote, digit, point
    and ASCII letter: one dict or set display whose entries are sums and
    differences of decimal numbers, of plain quoted strings and of names.
    Everything else (calls, attributes, keywords, radix prefixes, escapes,
    comprehensions, nested displays, ...) is [Unmodelled], so a result other
    than [Unmodelled] is the result of Python. *)

Inductive token : Type :=
| TLBrace | TRBrace | TColon | TComma | TPlus | TMinus
| TStr (s : text)
| TInt (z : Z)
| TFloat (mantissa exp10 : Z)
| TName (n : text).

(** The digits read so far are kept in reverse.  A float is read as its
    digits, the number of them after the point, and its exponent. *)
Inductive lex_state : Type :=
| LxStart
| LxStr (q : char) (rev_body : text)
| LxInt (rev_digits : text)
| LxDot
| LxFrac (rev_digits : text) (decimals : nat)
| LxExpMark (rev_digits : text) (decimals : nat)
| LxExpSign (rev_digits : text) (decimals : nat) (negative : bool)
| LxExp (rev_digits : text) (decimals : nat) (negative : bool) (rev_exp : text)
| LxName (rev_chars : text).

Definition is_ascii_digit (c : char) : bool := ((48 <=? c) && (c <=? 57))%N.
Definition is_blank (c : char) : bool := ((c =? 32) || (c =? 9))%N.
Definition is_quote (c : char) : bool := ((c =? 39) || (c =? 34))%N.
Definition is_exp_mark (c : char) : bool := ((c =? 101) || (c =? 69))%N.

(** The characters of an ASCII identifier; identifiers with other letters
    are left out of the model. *)
Definition is_name_start (c : char) : bool :=
  ((65 <=? c) && (c <=? 90) || (97 <=? c) && (c <=? 122) || (c =? 95))%N.
Definition is_name_char (c : char) : bool := is_name_start c || is_ascii_digit c.

(** A character of a quoted string that is neither its closing quote, nor a
    backslash, nor a line end. *)
Definition str_char_ok (q c : char) : bool :=
  (negb (c =? q) && negb (c =? 92) && negb (c =? 10) && negb (c =? 13))%N.

(** The characters after which a run of digits is a complete number and
    not the start of a hexadecimal, of a complex one or of an attribute. *)
Definition ends_number (c : char) : bool :=
  (is_blank c || (c =? 10) || (c =? 123) || (c =? 125) || (c =? 58) ||
   (c =? 44) || (c =? 43) || (c =? 45))%N.

(** The source as a whole: a NUL or a lone surrogate makes [eval] raise
    before it reads anything, which is left out of the model. *)
Definition source_char_ok (c : char) : bool :=
  ((0 <? c) && ((c <? 55296) || (57343 <? c) && (c <=? 1114111)))%N.

Definition decimal_value (ds : text) : Z :=
  fold_left (fun acc c => (10 * acc + (Z.of_N c - 48))%Z) ds 0%Z.

(** A decimal integer literal: zeros only, or no leading zero.  Literals
    beyond the interpreter's digit limit are left out of the model. *)
Definition int_token (ds : text) : outcome token :=
  if (4300 <? length ds)%nat then Unmodelled
  else if forallb (N.eqb 48) ds then Returns (TInt 0)
  else match ds with
       | 48%N :: _ => Raises SyntaxError
       | _ => Returns (TInt (decimal_value ds))
       end.

(** A float literal: its digits, leading zeros allowed, with [decimals] of
    them after the point, times ten to the exponent. *)
Definition float_token (rev_digits : text) (decimals : nat) (negative : bool)
    (rev_exp : text) : token :=
  let x := decimal_value (rev rev_exp) in
  TFloat (decimal_value (rev rev_digits))
         ((if negative then - x else x) - Z.of_nat decimals)%Z.

(** The words that are not names.  [True], [False] and [None] are values and
    the others are syntax; none of them is modelled. *)
Definition KEYWORDS : list string :=
  [ "False"; "None"; "True"; "and"; "as"; "assert"; "async"; "await"; "break";
    "class"; "continue"; "def"; "del"; "elif"; "else"; "except"; "finally";
    "for"; "from"; "global"; "if"; "import"; "in"; "is"; "lambda"; "nonlocal";
    "not"; "or"; "pass"; "raise"; "return"; "try"; "while"; "with"; "yield" ]%string.

Fixpoint text_eqb (a b : text) : bool :=
  match a, b with
  | [], [] => true
  | x :: a', y :: b' => N.eqb x y && text_eqb a' b'
  | _, _ => false
  end.

Definition name_token (n : text) : outcome token :=
  if existsb (fun k => text_eqb n (u k)) KEYWORDS then Unmodelled
  else Returns (TName n).

Inductive start_action : Type :=
| Emit (t : token) (depth : nat)
| Enter (st : lex_state)
| Skip
| Bad.

(** What a character does between two tokens, [depth] braces deep: inside
    braces a line feed is blank space. *)
Definition on_start (depth : nat) (c : char) : start_action :=
  if is_blank c then Skip
  else if (c =? 10)%N then match depth with O => Bad | S _ => Skip end
  else if (c =? 123)%N then Emit TLBrace (S depth)
  else if (c =? 125)%N then match depth with O => Bad | S d => Emit TRBrace d end
  else if (c =? 58)%N then Emit TColon depth
  else if (c =? 44)%N then Emit TComma depth
  else if (c =? 43)%N then Emit TPlus depth
  else if (c =? 45)%N then Emit TMinus depth
  else if is_quote c then Enter (LxStr c [])
  else if is_ascii_digit c then Enter (LxInt [c])
  else if (c =? 46)%N then Enter LxDot
  else if is_name_start c then Enter (LxName [c])
  else Bad.

Fixpoint lex (depth : nat) (st : lex_state) (s : text) : outcome (list token) :=
  match s with
  | [] =>
      match st with
      | LxStart => Returns []
      | LxStr _ _ => Raises SyntaxError
      | LxInt ds => t <- int_token (rev ds) ;; Returns [t]
      | LxFrac ds n => Returns [float_token ds n false []]
      | LxExp ds n neg es => Returns [float_token ds n neg es]
      | LxName cs => t <- name_token (rev cs) ;; Returns [t]
      | LxDot | LxExpMark _ _ | LxExpSign _ _ _ => Unmodelled
      end
  | c :: s' =>
      let start (_ : unit) :=
        match on_start depth c with
        | Emit t d => ts <- lex d LxStart s' ;; Returns (t :: ts)
        | Enter st' => lex depth st' s'
        | Skip => lex depth LxStart s'
        | Bad => Unmodelled
        end in
      match st with
      | LxStart => start tt
      | LxStr q body =>
          if N.eqb c q then
            match body, s' with
            | [], c' :: _ =>
                (* [''] followed by a third quote opens a triple-quoted string *)
                if N.eqb c' q then Unmodelled
                else ts <- lex depth LxStart s' ;; Returns (TStr [] :: ts)
            | _, _ => ts <- lex depth LxStart s' ;; Returns (TStr (rev body) :: ts)
            end
          else if str_char_ok q c then lex depth (LxStr q (c :: body)) s'
          else Unmodelled
      | LxInt ds =>
          if is_ascii_digit c then lex depth (LxInt (c :: ds)) s'
          else if (c =? 46)%N then lex depth (LxFrac ds 0) s'
          else if is_exp_mark c then lex depth (LxExpMark ds 0) s'
          else if ends_number c
               then t <- int_token (rev ds) ;; ts <- start tt ;; Returns (t :: ts)
               else Unmodelled
      | LxDot =>
          if is_ascii_digit c then lex depth (LxFrac [c] 1) s' else Unmodelled
      | LxFrac ds n =>
          if is_ascii_digit c then lex depth (LxFrac (c :: ds) (S n)) s'
          else if is_exp_mark c then lex depth (LxExpMark ds n) s'
          else if ends_number c
               then ts <- start tt ;; Returns (float_token ds n false [] :: ts)
               else Unmodelled
      | LxExpMark ds n =>
          if is_ascii_digit c then lex depth (LxExp ds n false [c]) s'
          else if (c =? 43)%N then lex depth (LxExpSign ds n false) s'
          else if (c =? 45)%N then lex depth (LxExpSign ds n true) s'
          else Unmodelled
      | LxExpSign ds n neg =>
          if is_ascii_digit c then lex depth (LxExp ds n neg [c]) s' else Unmodelled
      | LxExp ds n neg es =>
          if is_ascii_digit c then lex depth (LxExp ds n neg (c :: es)) s'
          else if ends_number c
               then ts <- start tt ;; Returns (float_token ds n neg es :: ts)
               else Unmodelled
      | LxName cs =>
          if is_name_char c then lex depth (LxName (c :: cs)) s'
          else if is_quote c then Unmodelled   (* a string prefix *)
          else t <- name_token (rev cs) ;; ts <- start tt ;; Returns (t :: ts)
      end
  end.

Inductive expr : Type :=
| EInt (z : Z)
| EFloat (mantissa exp10 : Z)
| EStr (s : text)
| EName (n : text)
| ENeg (e : expr)
| EPos (e : expr)
| EAdd (a b : expr)
| ESub (a b : expr).

Inductive display : Type :=
| DDict (items : list (expr * expr))
| DSet (elems : list expr).

(** Expressions longer than this many signs or operators are left out of
    the model (the interpreter has nesting limits of its own). *)
Definition EXPR_FUEL : nat := 16.

Fixpoint parse_unary (fuel : nat) (ts : list token) : outcome (expr * list token) :=
  match ts with
  | TInt z :: r => Returns (EInt z, r)
  | TFloat m x :: r => Returns (EFloat m x, r)
  | TName n :: r => Returns (EName n, r)
  | TStr _ :: TStr _ :: _ => Unmodelled   (* adjacent literals concatenate *)
  | TStr s :: r => Returns (EStr s, r)
  | TLBrace :: _ => Unmodelled            (* a nested display *)
  | TMinus :: r =>
      match fuel with
      | O => Unmodelled
      | S f => p <- parse_unary f r ;; Returns (ENeg (fst p), snd p)
      end
  | TPlus :: r =>
      match fuel with
      | O => Unmodelled
      | S f => p <- parse_unary f r ;; Returns (EPos (fst p), snd p)
      end
  | _ => Raises SyntaxError
  end.

Fixpoint parse_sum_tail (fuel : nat) (lhs : expr) (ts : list token)
    : outcome (expr * list token) :=
  match ts with
  | TPlus :: r =>
      match fuel with
      | O => Unmodelled
      | S f => p <- parse_unary EXPR_FUEL r ;;
               parse_sum_tail f (EAdd lhs (fst p)) (snd p)
      end
  | TMinus :: r =>
      match fuel with
      | O => Unmodelled
      | S f => p <- parse_unary EXPR_FUEL r ;;
               parse_sum_tail f (ESub lhs (fst p)) (snd p)
      end
  | _ => Returns (lhs, ts)
  end.

Definition parse_expr (ts : list token) : outcome (expr * list token) :=
  p <- parse_unary EXPR_FUEL ts ;; parse_sum_tail EXPR_FUEL (fst p) (snd p).

(** After a complete [key: value] entry. *)
Fixpoint parse_dict_tail (fuel : nat) (acc : list (expr * expr)) (ts : list token)
    : outcome display :=
  match ts with
  | [TRBrace] => Returns (DDict (rev acc))
  | [TComma; TRBrace] => Returns (DDict (rev acc))
  | TRBrace :: _ => Unmodelled
  | TComma :: TRBrace :: _ => Unmodelled
  | TComma :: r =>
      match fuel with
      | O => Unmodelled
      | S f =>
          k <- parse_expr r ;;
          match snd k with
          | TColon :: r2 =>
              v <- parse_expr r2 ;;
              parse_dict_tail f ((fst k, fst v) :: acc) (snd v)
          | _ => Raises SyntaxError
          end
      end
  | _ => Raises SyntaxError
  end.

(** After a complete set element. *)
Fixpoint parse_set_tail (fuel : nat) (acc : list expr) (ts : list token)
    : outcome display :=
  match ts with
  | [TRBrace] => Returns (DSet (rev acc))
  | [TComma; TRBrace] => Returns (DSet (rev acc))
  | TRBrace :: _ => Unmodelled
  | TComma :: TRBrace :: _ => Unmodelled
  | TComma :: r =>
      match fuel with
      | O => Unmodelled
      | S f => e <- parse_expr r ;; parse_set_tail f (fst e :: acc) (snd e)
      end
  | _ => Raises SyntaxError
  end.

Definition parse_display (ts : list token) : outcome display :=
  match ts with
  | [TLBrace; TRBrace] => Returns (DDict [])
  | TLBrace :: TRBrace :: _ => Unmodelled
  | TLBrace :: r =>
      e <- parse_expr r ;;
      match snd e with
      | TColon :: r2 =>
          v <- parse_expr r2 ;;
          parse_dict_tail (length r2) [(fst e, fst v)] (snd v)
      | r1 => parse_set_tail (length r1) [fst e] r1
      end
  | _ => Unmodelled
  end.

(** The values a display of the modelled fragment is made of.  [VFloat]
    stands for the float Python reads from a literal: the double nearest to
    [mantissa] times ten to the [exp10], with the sign given. *)
Inductive scalar : Type :=
| VInt (z : Z)
| VFloat (negative : bool) (mantissa exp10 : Z)
| VStr (s : text).

(** A [dict] keeps its keys in insertion order; a [set] is kept in the order
    of first occurrence, an order the program never observes. *)
Inductive value : Type :=
| VDict (items : list (scalar * scalar))
| VSet (elems : list scalar).

(** Equality of keys.  A float is never a key in the model (see
    [eval_items]), so nothing depends on the answer for floats. *)
Definition scalar_eqb (a b : scalar) : bool :=
  match a, b with
  | VInt x, VInt y => Z.eqb x y
  | VStr x, VStr y => text_eqb x y
  | _, _ => false
  end.

Section Evaluator.

(** The names bound where line 280 runs: the globals of the module and the
    builtins.  The table belongs to the run, not to the text of the payload;
    looking up a name that is not in it raises [NameError], and what a bound
    name stands for is not modelled. *)
Variable name_bound : text -> bool.

Fixpoint eval_expr (e : expr) : outcome scalar :=
  match e with
  | EInt z => Returns (VInt z)
  | EFloat m x => Returns (VFloat false m x)
  | EStr s => Returns (VStr s)
  | EName n => if name_bound n then Unmodelled else Raises NameError
  | ENeg a =>
      x <- eval_expr a ;;
      match x with
      | VInt z => Returns (VInt (- z))
      | VFloat s m x => Returns (VFloat (negb s) m x)
      | VStr _ => Raises TypeError
      end
  | EPos a =>
      x <- eval_expr a ;;
      match x with
      | VInt z => Returns (VInt z)
      | VFloat s m x => Returns (VFloat s m x)
      | VStr _ => Raises TypeError
      end
  | EAdd a b =>
      x <- eval_expr a ;;
      y <- eval_expr b ;;
      match x, y with
      | VInt m, VInt n => Returns (VInt (m + n))
      | VStr s, VStr t => Returns (VStr (s ++ t))
      | VFloat _ _ _, VStr _ | VStr _, VFloat _ _ _ => Raises TypeError
      | VFloat _ _ _, _ | _, VFloat _ _ _ => Unmodelled   (* rounding *)
      | _, _ => Raises TypeError
      end
  | ESub a b =>
      x <- eval_expr a ;;
      y <- eval_expr b ;;
      match x, y with
      | VInt m, VInt n => Returns (VInt (m - n))
      | VFloat _ _ _, VStr _ | VStr _, VFloat _ _ _ => Raises TypeError
      | VFloat _ _ _, _ | _, VFloat _ _ _ => Unmodelled   (* rounding *)
      | _, _ => Raises TypeError
      end
  end.

(** [d[k] = v]: an existing key keeps its place and takes the new value. *)
Fixpoint dict_set (k v : scalar) (d : list (scalar * scalar)) : list (scalar * scalar) :=
  match d with
  | [] => [(k, v)]
  | (k', v') :: d' =>
      if scalar_eqb k k' then (k', v) :: d' else (k', v') :: dict_set k v d'
  end.

Fixpoint set_add (x : scalar) (d : list scalar) : list scalar :=
  match d with
  | [] => [x]
  | y :: d' => if scalar_eqb x y then d else y :: set_add x d'
  end.

(** A float as a key or as a member of a set is left out of the model: it
    is the same key as the integer it equals. *)
Fixpoint eval_items (items : list (expr * expr)) (d : list (scalar * scalar))
    : outcome (list (scalar * scalar)) :=
  match items with
  | [] => Returns d
  | (ke, ve) :: rest =>
      k <- eval_expr ke ;;
      v <- eval_expr ve ;;
      match k with
      | VFloat _ _ _ => Unmodelled
      | _ => eval_items rest (dict_set k v d)
      end
  end.

Fixpoint eval_elems (elems : list expr) (d : list scalar) : outcome (list scalar) :=
  match elems with
  | [] => Returns d
  | e :: rest =>
      x <- eval_expr e ;;
      match x with
      | VFloat _ _ _ => Unmodelled
      | _ => eval_elems rest (set_add x d)
      end
  end.

Definition eval_display (d : display) : outcome value :=
  match d with
  | DDict items => r <- eval_items items [] ;; Returns (VDict r)
  | DSet elems => r <- eval_elems elems [] ;; Returns (VSet r)
  end.

(** [eval(source)] *)
Definition py_eval (source : text) : outcome value :=
  if forallb source_char_ok source then
    ts <- lex 0 LxStart source ;;
    d <- parse_display ts ;;
    eval_display d
  else Unmodelled.

End Evaluator.

(** Modelled from the spec: the restricted literal parser the specification
    asks for in place of [eval] (section 9: a flat mapping of quoted strings
    to numbers, anything else rejected).  It reads the same tokens as the
    evaluator and accepts [{}] and [{'k': n, ...}] with an optional trailing
    comma, where [n] is a decimal number, an integer or a float, with at
    most one sign; [None] is the rejection as MalformedSkillsBlock. *)
Definition number (ts : list token) : option (scalar * list token) :=
  match ts with
  | TInt v :: r => Some (VInt v, r)
  | TFloat m x :: r => Some (VFloat false m x, r)
  | TMinus :: TInt v :: r => Some (VInt (- v), r)
  | TMinus :: TFloat m x :: r => Some (VFloat true m x, r)
  | TPlus :: TInt v :: r => Some (VInt v, r)
  | TPlus :: TFloat m x :: r => Some (VFloat false m x, r)
  | _ => None
  end.

Fixpoint flat_items (fuel : nat) (ts : list token) : option (list (text * scalar)) :=
  match fuel with
  | O => None
  | S f =>
      match ts with
      | TStr k :: TColon :: r0 =>
          match number r0 with
          | Some (v, [TRBrace]) => Some [(k, v)]
          | Some (v, [TComma; TRBrace]) => Some [(k, v)]
          | Some (v, TComma :: r') =>
              match flat_items f r' with
              | Some items => Some ((k, v) :: items)
              | None => None
              end
          | _ => None
          end
      | _ => None
      end
  end.

Definition safe_literal_parse (payload : text) : option (list (text * scalar)) :=
  if forallb source_char_ok payload then
    match lex 0 LxStart payload with
    | Returns [TLBrace; TRBrace] => Some []
    | Returns (TLBrace :: r) => flat_items (length r) r
    | _ => None
    end
  else None.


(** ** Charts

    A figure is kept as the data the program hands to matplotlib.  The float
    [n / float(num_vars) * 2 * 3.14159] is kept as the pair [(n, num_vars)]. *)

Record radar_figure : Type := {
  radar_angles : list (nat * nat);
  radar_values : list scalar;
  radar_xticks : list (nat * nat);
  radar_xticklabels : list scalar;
  radar_ylim : Z * Z;
  radar_title : text
}.

Definition is_str (x : scalar) : bool :=
  match x with VStr _ => true | _ => false end.

(** A float that is surely finite: below ten to the 300. *)
Definition float_is_finite (m x : Z) : bool :=
  ((m =? 0) || (x <=? 0) && (m <? 10 ^ 300)
   || (0 <? x) && (x <? 300) && (m <? 10 ^ (300 - x)))%Z.

(** Scores matplotlib plots as they are: integers a float holds exactly,
    and finite floats. *)
Definition is_plain_number (x : scalar) : bool :=
  match x with
  | VInt z => ((- 9007199254740992 <=? z) && (z <=? 9007199254740992))%Z
  | VFloat _ m x => float_is_finite m x
  | VStr _ => false
  end.

(** Lines 111-153.  What matplotlib does with labels that are not strings or
    with values that are not plain numbers is not modelled. *)
Definition create_radar_chart (skills_data : value) (job_title : text)
    : outcome (option radar_figure) :=
  let num_vars :=
    match skills_data with
    | VDict d => length d
    | VSet e => length e
    end in
  if Nat.eqb num_vars 0 then Returns None
  else
    let angles := map (fun n => (n, num_vars)) (seq 0 num_vars) in
    let angles := angles ++ firstn 1 angles in
    match skills_data with
    | VSet _ => Raises AttributeError   (* skills_data.values() *)
    | VDict d =>
        let values := map snd d in
        let values := values ++ firstn 1 values in
        if forallb is_plain_number values && forallb is_str (map fst d) then
          Returns (Some {| radar_angles := angles;
                           radar_values := values;
                           radar_xticks := removelast angles;
                           radar_xticklabels := map fst d;
                           radar_ylim := (0, 100)%Z;
                           radar_title := job_title ++ u " - Skill Proficiency" |})
        else Unmodelled
    end.

(** Decimal rendering, most significant digit first ([str(n)]). *)
Fixpoint render_nat_fuel (fuel : nat) (n : N) (acc : text) : text :=
  match fuel with
  | O => acc
  | S f =>
      let acc' := (48 + N.modulo n 10)%N :: acc in
      if (n <? 10)%N then acc' else render_nat_fuel f (n / 10)%N acc'
  end.

Definition render_nat (n : N) : text :=
  render_nat_fuel (S (N.to_nat (N.log2 n))) n [].

Definition render_int (z : Z) : text :=
  if (z <? 0)%Z then 45%N :: render_nat (Z.to_N (- z)) else render_nat (Z.to_N z).

Record bar_figure : Type := {
  bar_labels : list text;
  bar_widths : list Z;
  bar_xlim : Z * Z;
  bar_texts : list (Z * nat * text)
}.

(** Lines 156-177. *)
Definition create_bar_chart (match_score : Z) (title : text) : bar_figure :=
  {| bar_labels := [title];
     bar_widths := [match_score];
     bar_xlim := (0, 100)%Z;
     bar_texts := [((match_score + 3)%Z, O, render_int match_score ++ u "%")] |}.

(** ** What the page shows

    The Streamlit calls of the script, in the order they are made. *)

Inductive event : Type :=
| StMarkdown (body : text)
| StProgress (match_score : Z)
| StPyplotBar (fig : bar_figure)
| StPyplotRadar (fig : radar_figure)
| StWarning (msg : text)
| StInfo (msg : text)
| StError (msg : text)
| StErrorExn (msg : text) (e : exn)
| StDownloadButton (label : text) (data : list byte) (file_name : text) (mime : text).

(** A piece of the script: the calls it made and how it ended.  The calls
    made before an exception stay made. *)
Definition script (A : Type) : Type := (list event * outcome A)%type.

Definition sret {A : Type} (a : A) : script A := ([], Returns a).

Definition sbind {A B : Type} (x : script A) (f : A -> script B) : script B :=
  match x with
  | (ev, Returns a) => (ev ++ fst (f a), snd (f a))
  | (ev, Raises e) => (ev, Raises e)
  | (ev, Unmodelled) => (ev, Unmodelled)
  end.

Definition emit (e : event) : script unit := ([e], Returns tt).

Definition lift {A : Type} (o : outcome A) : script A := ([], o).

(** [try: body / except Exception as e: handler].  Every exception of [exn]
    is caught, since [exn] holds those of the class [Exception] only; what
    [except Exception] lets through is not in the model. *)
Definition try_except {A : Type} (body : script A) (handler : exn -> script A)
    : script A :=
  match body with
  | (ev, Raises e) => (ev ++ fst (handler e), snd (handler e))
  | other => other
  end.

Notation "x <~ c1 ;; c2" := (sbind c1 (fun x => c2))
  (at level 61, c1 at next level, right associativity).
Notation "c1 >> c2" := (sbind c1 (fun _ => c2))
  (at level 61, right associativity).

(** [s.encode('latin-1')] *)
Fixpoint encode_latin1 (s : text) : outcome (list byte) :=
  match s with
  | [] => Returns []
  | c :: s' =>
      match Byte.of_N c with
      | Some b => r <- encode_latin1 s' ;; Returns (b :: r)
      | None => Raises UnicodeEncodeError
      end
  end.

(** The digit table of plain ASCII, one instance of the Unicode decimal digit
    property the development is parametric in. *)
Definition ascii_digit_value (c : char) : option Z :=
  if is_ascii_digit c then Some (Z.of_N c - 48)%Z else None.

Section Parser.

(** The Unicode decimal-digit property of the Python runtime ([\d] of [re],
    the digits [int] accepts): the value of a code point that is a decimal
    digit.  The table itself belongs to the runtime, not to the program. *)
Variable digit_value : char -> option Z.

(** The names bound where line 280 evaluates the payload (see the
    evaluator). *)
Variable name_bound : text -> bool.

(** Three facts of that table: the ASCII digits have their values, the
    percent sign is not a digit, and a digit is worth 0 to 9. *)
Hypothesis digit_value_ascii :
  forall c, is_ascii_digit c = true -> digit_value c = Some (Z.of_N c - 48)%Z.
Hypothesis percent_not_digit : digit_value PERCENT = None.
Hypothesis digit_value_range :
  forall c d, digit_value c = Some d -> (0 <= d <= 9)%Z.

Definition is_digit (c : char) : bool :=
  match digit_value c with Some _ => true | None => false end.

(** ** A backtracking matcher for the patterns of the program *)

Inductive cls : Type :=
| ClsDigit   (* \d *)
| ClsSpace   (* \s *)
| ClsAny.    (* .  *)

Inductive regex : Type :=
| Lit (s : text)
| Rep (k : cls) (lo : nat) (hi : option nat) (greedy : bool)
| Group (r : regex)
| Seq (r1 r2 : regex)
| Alt (r1 r2 : regex)
| Eos.

Definition cls_match (dotall : bool) (k : cls) (c : char) : bool :=
  match k with
  | ClsDigit => is_digit c
  | ClsSpace => is_space c
  | ClsAny => dotall || negb (N.eqb c LF)
  end.

(** [k{lo,hi}] followed by the continuation: a greedy repetition tries one
    more character first, a lazy one tries the continuation first. *)
Fixpoint rep {A : Type} (dotall : bool) (k : cls) (greedy : bool)
    (lo : nat) (hi : option nat) (s : text) (cont : text -> option A)
    {struct s} : option A :=
  let more :=
    match hi, s with
    | Some O, _ => None
    | _, c :: s' =>
        if cls_match dotall k c
        then rep dotall k greedy (pred lo) (option_map pred hi) s' cont
        else None
    | _, [] => None
    end in
  match lo with
  | S _ => more
  | O => if greedy then orelse more (cont s) else orelse (cont s) more
  end.

(** [rmatch r s g cont]: match [r] at the head of [s]; [g] is group 1 so far;
    the continuation receives the rest of the text and the group and decides
    whether the whole match succeeds, which is what drives backtracking. *)
Fixpoint rmatch {A : Type} (dotall : bool) (r : regex) (s : text)
    (g : option text) (cont : text -> option text -> option A) : option A :=
  match r with
  | Lit l =>
      match strip_prefix l s with
      | Some s' => cont s' g
      | None => None
      end
  | Rep k lo hi greedy => rep dotall k greedy lo hi s (fun s' => cont s' g)
  | Group r' =>
      rmatch dotall r' s g
        (fun s' _ => cont s' (Some (firstn (length s - length s') s)))
  | Seq r1 r2 =>
      rmatch dotall r1 s g (fun s' g' => rmatch dotall r2 s' g' cont)
  | Alt r1 r2 => orelse (rmatch dotall r1 s g cont) (rmatch dotall r2 s g cont)
  | Eos =>
      match s with
      | [] => cont s g
      | [c] => if N.eqb c LF then cont s g else None
      | _ => None
      end
  end.

(** A match object, as far as the program looks at it: [group(1)]. *)
Record re_match : Type := { group1 : option text }.

Definition match_here (dotall : bool) (r : regex) (s : text) : option re_match :=
  rmatch dotall r s None (fun _ g => Some {| group1 := g |}).

(** [re.search]: the match at the leftmost position that has one. *)
Fixpoint re_search (dotall : bool) (r : regex) (s : text) : option re_match :=
  orelse (match_here dotall r s)
    (match s with
     | [] => None
     | _ :: s' => re_search dotall r s'
     end).

(** ** extract_match_percentage *)

(** [int(s)] on a string of decimal digits. *)
Fixpoint digits_value (acc : Z) (s : text) : option Z :=
  match s with
  | [] => Some acc
  | c :: s' =>
      match digit_value c with
      | Some d => digits_value (10 * acc + d) s'
      | None => None
      end
  end.

(** [int(match.group(1))]: a group that took no part is [None], on which
    [int] raises; a non-empty digit string has its decimal value; the other
    spellings [int] accepts (signs, blanks, underscores) are not modelled. *)
Definition py_int (g : option text) : outcome Z :=
  match g with
  | None => Raises TypeError
  | Some [] => Raises ValueError
  | Some s =>
      match digits_value 0 s with
      | Some v => Returns v
      | None => Unmodelled
      end
  end.

(** r'(\d{1,3})%' *)
Definition score_re : regex :=
  Seq (Group (Rep ClsDigit 1 (Some 3) true)) (Lit (u "%")).

Definition extract_match_percentage (t : text) : outcome (option Z) :=
  if truthy t then
    match re_search false score_re t with
    | Some mt => v <- py_int (group1 mt) ;; Returns (Some (Z.min v 100))
    | None => Returns None
    end
  else Returns None.

(** ** The cover-letter rule *)

Definition COVER_LABEL : text := u "Cover Letter:".
Definition ATS_MARKER : text := u "ATS Formatting Check:".
Definition INTERVIEW_MARKER : text := u "Interview Questions:".

(** r"Cover Letter:\s*(.*?)(?:ATS Formatting Check:|Interview Questions:|$)",
    searched with [re.DOTALL]. *)
Definition cover_re : regex :=
  Seq (Lit COVER_LABEL)
    (Seq (Rep ClsSpace 0 None true)
       (Seq (Group (Rep ClsAny 0 None false))
          (Alt (Lit ATS_MARKER) (Alt (Lit INTERVIEW_MARKER) Eos)))).

(** Lines 293-295: the search and [cover_letter_match.group(1).strip()].
    [None] is the case in which the program has no cover letter; group 1
    takes part in every match of this pattern. *)
Definition extractCoverLetter (analysis : text) : option text :=
  match re_search true cover_re analysis with
  | Some mt =>
      match group1 mt with
      | Some g => Some (strip g)
      | None => None
      end
  | None => None
  end.

(** ** The skills rule: the pattern *)

Definition SKILLS_LABEL : text := u "Skills Match:".
Definition LBRACE : char := 123%N.
Definition RBRACE : char := 125%N.

(** r"Skills Match:\s*({.*?})", searched without flags. *)
Definition skills_re : regex :=
  Seq (Lit SKILLS_LABEL)
    (Seq (Rep ClsSpace 0 None true)
       (Group (Seq (Lit [LBRACE]) (Seq (Rep ClsAny 0 None false) (Lit [RBRACE]))))).

(** Lines 277-280: the search, then [eval] on the captured payload.
    [None]: no skills block; [Some (Returns v)]: the evaluated payload;
    [Some (Raises e)]: the payload made [eval] raise. *)
Definition extractSkillScoreMap (analysis : text) : option (outcome value) :=
  match re_search false skills_re analysis with
  | Some mt =>
      match group1 mt with
      | Some payload => Some (py_eval name_bound payload)
      | None => Some (Raises TypeError)
      end
  | None => None
  end.

(** Lines 277-287. *)
Definition skills_section (analysis : text) : script unit :=
  match extractSkillScoreMap analysis with
  | Some evaluated =>
      try_except
        (skills_dict <~ lift evaluated ;;
         radar_chart <~ lift (create_radar_chart skills_dict (u "Skills Overview")) ;;
         match radar_chart with
         | Some fig => emit (StPyplotRadar fig)
         | None => sret tt
         end)
        (fun e => emit (StErrorExn (u "Error processing skills data: ") e))
  | None => emit (StInfo (u "No specific skills match found to visualize."))
  end.

(** Lines 265-274. *)
Definition score_section (match_score : option Z) : script unit :=
  match match_score with
  | Some sc =>
      emit (StMarkdown
              (u "<p style='font-size: 1.8em; font-weight: bold; color:#2E7D32;'>Match Score: "
                 ++ render_int sc ++ u "%</p>")) >>
      (* st.progress refuses a value outside [0.0, 1.0] *)
      (if ((0 <=? sc) && (sc <=? 100))%Z then emit (StProgress sc)
       else lift (Raises (LibraryError 1))) >>
      emit (StPyplotBar (create_bar_chart sc (u "Resume Match")))
  | None => emit (StWarning (u "Match score could not be calculated."))
  end.

Section Documents.

(** The FPDF class of the [fpdf] package, an external library: the document
    under construction and the five calls the program makes on it, each of
    which hands back the document or raises.  What [output] writes depends
    on the moment of the call, since the library puts the creation date it
    reads from the clock into the document: [output_S] is the call at one
    reading of the clock, and calls at two readings are two such functions
    (see the section on the clock below). *)
Variable pdf : Type.
Variable FPDF : exn + pdf.
Variable add_page : pdf -> exn + pdf.
Variable set_font : text -> Z -> pdf -> exn + pdf.
Variable multi_cell : Z -> Z -> text -> pdf -> exn + pdf.
Variable output_S : pdf -> exn + text.

(** Lines 81-93. *)
Definition generate_pdf_report (content : text) : script (option (list byte)) :=
  try_except
    (lift
       (doc <- call FPDF ;;
        doc <- call (add_page doc) ;;
        doc <- call (set_font (u "Arial") 12 doc) ;;
        doc <- fold_left (fun acc line => d <- acc ;; call (multi_cell 0 10 line d))
                 (split_lines content) (Returns doc) ;;
        buffer <- call (output_S doc) ;;
        output <- encode_latin1 buffer ;;
        Returns (Some output)))
    (fun e => emit (StErrorExn (u "Error generating PDF report: ") e) >> sret None).

(** Lines 96-107. *)
Definition generate_cover_letter_pdf (cover_letter_text : text)
    : script (option (list byte)) :=
  try_except
    (lift
       (doc <- call FPDF ;;
        doc <- call (add_page doc) ;;
        doc <- call (set_font (u "Arial") 12 doc) ;;
        doc <- fold_left (fun acc line => d <- acc ;; call (multi_cell 0 10 line d))
                 (split_lines cover_letter_text) (Returns doc) ;;
        buffer <- call (output_S doc) ;;
        output <- encode_latin1 buffer ;;
        Returns (Some output)))
    (fun e => emit (StErrorExn (u "Error generating cover letter PDF: ") e) >> sret None).

Definition PDF_MIME : text := u "application/pdf".

(** Lines 293-306. *)
Definition cover_section (analysis : text) : script unit :=
  match extractCoverLetter analysis with
  | Some cover_letter =>
      cover_letter_pdf_data <~ generate_cover_letter_pdf cover_letter ;;
      match cover_letter_pdf_data with
      | Some (b :: data) =>
          emit (StDownloadButton (128196%N :: u " Download Cover Letter (PDF)")
                  (b :: data) (u "cover_letter.pdf") PDF_MIME)
      | _ => emit (StError (u "Failed to generate Cover Letter PDF"))
      end
  | None => sret tt
  end.

(** Lines 309-318. *)
Definition report_section (pdf_report_bytes : option (list byte)) : script unit :=
  match pdf_report_bytes with
  | Some (b :: data) =>
      emit (StDownloadButton (128229%N :: u " Download Full Report (PDF)")
              (b :: data) (u "resume_analysis_report.pdf") PDF_MIME)
  | _ => emit (StWarning (u "Failed to generate PDF report."))
  end.

(** Lines 258-318, the body of [if analysis:]. *)
Definition analysis_page (analysis : text) : script unit :=
  match_score <~ lift (extract_match_percentage analysis) ;;
  pdf_report_bytes <~ generate_pdf_report analysis ;;
  emit (StMarkdown (u "<hr>")) >>
  emit (StMarkdown (u "<h2 style='color: #3366cc;'>Analysis Report</h2>")) >>
  score_section match_score >>
  skills_section analysis >>
  emit (StMarkdown (u "<h3 style='color: #3366cc;'>Key Insights</h3>")) >>
  emit (StMarkdown analysis) >>
  cover_section analysis >>
  report_section pdf_report_bytes.

(** Lines 256-320: [analysis] is what [analyze_resume] returned. *)
Definition show_analysis (analysis : option text) : script unit :=
  match analysis with
  | Some a =>
      if truthy a then analysis_page a
      else emit (StWarning (u "Failed to analyze resume."))
  | None => emit (StWarning (u "Failed to analyze resume."))
  end.

(** The body of the [try] block, common to both generators. *)
Definition document_bytes (content : text) : outcome (option (list byte)) :=
  doc <- call FPDF ;;
  doc <- call (add_page doc) ;;
  doc <- call (set_font (u "Arial") 12 doc) ;;
  doc <- fold_left (fun acc line => d <- acc ;; call (multi_cell 0 10 line d))
           (split_lines content) (Returns doc) ;;
  buffer <- call (output_S doc) ;;
  output <- encode_latin1 buffer ;;
  Returns (Some output).

End Documents.

Unset Implicit Arguments.

(** ** The rest of the script: reading the PDF, asking the model, the main area *)

(** ["\n".join(lines)] *)
Fixpoint join_lines (lines : list text) : text :=
  match lines with
  | [] => []
  | [l] => l
  | l :: rest => l ++ LF :: join_lines rest
  end.

(** The instruction lines of the prompt template, lines 57-65. *)
Definition PROMPT_INSTRUCTIONS : list text :=
  [ u "        Perform a highly focused and practical analysis of the resume against the job description.";
    u "        1. Identify and list specific similarities and differences in skills, experience, and keywords.";
    u "        2. For each key skill or requirement mentioned in the job description, provide direct, currently working and relevant online reference links to books, notes, or educational websites.";
    u "        3. Based on the calculated match percentage, provide clear and actionable advice:";
    u "           - If the match is below 60%, recommend specific new topics to study, accompanied by currently working and relevant learning links to books, notes, or educational websites.";
    u "           - If the match is 60% or higher, focus on interview preparation tips and suggest targeted resume improvements to better align with the job description.";
    u "        4. Ensure all links provided are directly relevant, currently functional, and are available to the user immediately.";
    u "        5. Provide a cover letter based on the job description and resume, with proper indentation.";
    u "        6. Provide an ATS formatting check and highlight any issues." ].

Definition INDENT : text := u "        ".

(** [f"{PROMPT}"]: [os.getenv] gives a string or [None]. *)
Definition format_env (v : option text) : text :=
  match v with
  | Some s => s
  | None => u "None"
  end.

(** Lines 48-66, the f-string. *)
Definition build_prompt (PROMPT : option text) (resume_text job_desc : text) : text :=
  join_lines
    ([ [];
       INDENT ++ format_env PROMPT;
       [];
       INDENT ++ u "Resume:";
       INDENT ++ resume_text;
       [];
       INDENT ++ u "Job Description:";
       INDENT ++ job_desc;
       [] ]
     ++ PROMPT_INSTRUCTIONS ++ [INDENT]).

Section Application.

(** The libraries the script calls: pymupdf (a document is the list of its
    pages), the Gemini client, and FPDF as before.  [PROMPT] is the
    environment variable read at start-up. *)
Variable page : Type.
Variable pymupdf_open : list byte -> exn + list page.
Variable get_text : page -> exn + text.
Variable PROMPT : option text.
Variable model : Type.
Variable response : Type.
Variable GenerativeModel : text -> exn + model.
Variable generate_content : model -> text -> exn + response.
Variable response_text : response -> exn + text.
Variable pdf : Type.
Variable FPDF : exn + pdf.
Variable add_page : pdf -> exn + pdf.
Variable set_font : text -> Z -> pdf -> exn + pdf.
Variable multi_cell : Z -> Z -> text -> pdf -> exn + pdf.
Variable output_S : pdf -> exn + text.

(** Lines 33-42; [pdf_file] stands for the bytes [pdf_file.read()] gives. *)
Definition extract_text_from_pdf (pdf_file : list byte) : script (option text) :=
  try_except
    (lift
       (doc <- call (pymupdf_open pdf_file) ;;
        text <- fold_left
                  (fun acc pg => t <- acc ;; p <- call (get_text pg) ;; Returns (t ++ p))
                  doc (Returns []) ;;
        Returns (Some text)))
    (fun e => emit (StErrorExn (u "Error extracting text from PDF: ") e) >> sret None).

(** Lines 45-71. *)
Definition analyze_resume (resume_text job_desc : text) : script (option text) :=
  try_except
    (lift
       (m <- call (GenerativeModel (u "gemini-2.0-flash")) ;;
        r <- call (generate_content m (build_prompt PROMPT resume_text job_desc)) ;;
        t <- call (response_text r) ;;
        Returns (Some t)))
    (fun e => emit (StErrorExn (u "Error analyzing resume: ") e) >> sret None).

(** Lines 252-322.  [uploaded_file] is [None] or the bytes of the upload;
    the spinner shown while the block runs leaves nothing on the page. *)
Definition main_area (analyze_button : bool) (uploaded_file : option (list byte))
    (job_description : text) : script unit :=
  match uploaded_file with
  | Some pdf_file =>
      if analyze_button && truthy job_description then
        resume_text <~ extract_text_from_pdf pdf_file ;;
        match resume_text with
        | Some (c :: r) =>
            analysis <~ analyze_resume (c :: r) job_description ;;
            show_analysis FPDF add_page set_font multi_cell output_S analysis
        | _ => emit (StWarning (u "Failed to extract text from the uploaded PDF."))
        end
      else sret tt
  | None => sret tt
  end.

End Application.

(** * Notions the statements use *)

(** One to three decimal digits. *)
Definition score_token (ds : text) : Prop :=
  1 <= length ds <= 3 /\ forallb is_digit ds = true.

(** An occurrence of the percentage pattern in [t], right after [pre]. *)
Definition token_at (t pre ds : text) : Prop :=
  score_token ds /\ exists rest, t = pre ++ ds ++ PERCENT :: rest.

(** The number a row of digit values writes, the first digit weighing most:
    [decimal [7; 5]] is 75. *)
Fixpoint decimal (dl : list Z) : Z :=
  match dl with
  | [] => 0
  | d :: r => d * 10 ^ Z.of_nat (length r) + decimal r
  end.

(** The characters [ds] are decimal digits, and [dl] are their values. *)
Definition digits_of (ds : text) (dl : list Z) : Prop :=
  Forall2 (fun c d => digit_value c = Some d) ds dl.

Definition score_cont (s s' : text) : option re_match :=
  match strip_prefix [PERCENT] s' with
  | Some _ => Some {| group1 := Some (firstn (length s - length s') s) |}
  | None => None
  end.

Definition render_ok (n : N) : bool :=
  let r := render_nat n in
  (1 <=? length r) && (length r <=? 3) && forallb is_ascii_digit r
  && (decimal_value r =? Z.of_N n)%Z.

(** [pat] occurs in [t] right after [p]. *)
Definition occurs_at (pat t p : text) : Prop := exists q, t = p ++ pat ++ q.

Definition is_marker (m : text) : Prop :=
  m = ATS_MARKER \/ m = INTERVIEW_MARKER.

(** [c] is [x] without the white space at its two ends: what is cut off is
    white space, and [c] neither starts nor ends with any. *)
Definition trim_of (x c : text) : Prop :=
  exists a b,
    x = a ++ c ++ b /\
    forallb is_space a = true /\ forallb is_space b = true /\
    (forall h y, c = h :: y -> is_space h = false) /\
    (forall y z, c = y ++ [z] -> is_space z = false).

(** The alternation that ends the cover letter, with group 1 already set. *)
Definition cover_stop (g : option text) (s : text) : option re_match :=
  rmatch true (Alt (Lit ATS_MARKER) (Alt (Lit INTERVIEW_MARKER) Eos)) s g
    (fun _ g' => Some {| group1 := g' |}).

Definition cover_body (s2 : text) : option re_match :=
  rep true ClsAny false 0 None s2
    (fun s3 => cover_stop (Some (firstn (length s2 - length s3) s2)) s3).

(** Deciding where a pattern first occurs, for concrete texts. *)
Fixpoint starts_before (pat t : text) (n : nat) {struct n} : bool :=
  match n with
  | O => false
  | S n' =>
      match strip_prefix pat t with
      | Some _ => true
      | None =>
          match t with
          | [] => false
          | _ :: t' => starts_before pat t' n'
          end
      end
  end.

(** The positions at which [pat] occurs in [t], counted from [i]. *)
Fixpoint occurrences (pat t : text) (i : nat) : list nat :=
  (match strip_prefix pat t with Some _ => [i] | None => [] end)
  ++ match t with
     | [] => []
     | _ :: t' => occurrences pat t' (S i)
     end.

Definition skills_close (s2 s4 : text) : option re_match :=
  match strip_prefix [RBRACE] s4 with
  | Some s5 => Some {| group1 := Some (firstn (length s2 - length s5) s2) |}
  | None => None
  end.

Definition skills_body (s2 : text) : option re_match :=
  match strip_prefix [LBRACE] s2 with
  | Some s3 => rep false ClsAny false 0 None s3 (skills_close s2)
  | None => None
  end.



(** A computation that returns a document or raises: it neither returns
    [None] nor leaves the model. *)
Definition yields_document (o : outcome (option (list byte))) : Prop :=
  match o with
  | Returns (Some _) | Raises _ => True
  | Returns None | Unmodelled => False
  end.

Definition modelled {A : Type} (o : outcome A) : Prop := o <> Unmodelled.

(** The steps of a document generator, written out for a given list of
    lines: a new document, a page, the font, one cell per line in order, the
    output and its encoding. *)
Fixpoint cells {pdf : Type} (multi_cell : Z -> Z -> text -> pdf -> exn + pdf)
    (lines : list text) (doc : pdf) : outcome pdf :=
  match lines with
  | [] => Returns doc
  | l :: ls => d <- call (multi_cell 0%Z 10%Z l doc) ;; cells multi_cell ls d
  end.

Definition render_lines {pdf : Type} (FPDF : exn + pdf) (add_page : pdf -> exn + pdf)
    (set_font : text -> Z -> pdf -> exn + pdf)
    (multi_cell : Z -> Z -> text -> pdf -> exn + pdf)
    (output_S : pdf -> exn + text) (lines : list text) : outcome (list byte) :=
  doc <- call FPDF ;;
  doc <- call (add_page doc) ;;
  doc <- call (set_font (u "Arial") 12%Z doc) ;;
  doc <- cells multi_cell lines doc ;;
  buffer <- call (output_S doc) ;;
  encode_latin1 buffer.

(** The events the score section alone produces. *)
Definition is_score_output (e : event) : bool :=
  match e with
  | StProgress _ | StPyplotBar _ => true
  | _ => false
  end.

Definition REPORT_BUTTON (data : list byte) : event :=
  StDownloadButton (128229%N :: u " Download Full Report (PDF)") data
    (u "resume_analysis_report.pdf") PDF_MIME.

(** ** Sample texts *)

(** Scenario A of the specification. *)
Definition SCENARIO_A_HEAD : text :=
  u "Match: 75%" ++ LF :: u "Skills Match: {'Python': 80, 'SQL': 60}" ++ [LF].
Definition SCENARIO_A_LETTER : text :=
  LF :: u "Dear Hiring Manager..." ++ [LF].
Definition SCENARIO_A_TAIL : text := LF :: u "Looks fine.".
Definition SCENARIO_A : text :=
  SCENARIO_A_HEAD ++ COVER_LABEL ++ SCENARIO_A_LETTER ++ ATS_MARKER ++ SCENARIO_A_TAIL.

(** A skills block written over two lines. *)
Definition TWO_LINE_PAYLOAD : text :=
  u "{'Python': 80," ++ LF :: u " 'SQL': 60}".

(** A stand-in for the FPDF library that keeps the cells it was given and
    writes them out one after the other. *)
Definition toy_multi_cell (w h : Z) (line : text) (doc : list text) : exn + list text :=
  inr (doc ++ [line]).
Definition toy_output (doc : list text) : exn + text := inr (u "%PDF" ++ concat doc).

(** A stand-in for [FPDF.output] that writes the reading of the clock into
    the document, as the library does with the creation date. *)
Definition toy_output_at (now : N) (doc : list text) : exn + text :=
  inr (u "%PDF D:" ++ render_nat now ++ 32%N :: concat doc).

(** A text without a percent sign and with a dash outside Latin-1. *)
Definition DASH_TEXT : text := u "Strong profile " ++ 8212%N :: u " no score".

(** A stand-in for pymupdf: an upload of no bytes cannot be opened, any
    other one holds two pages; a page gives its text or cannot be read. *)
Definition toy_open (pdf_file : list byte) : exn + list (option text) :=
  match pdf_file with
  | [] => inl (LibraryError 2)
  | _ => inr [Some (u "Jane Doe. "); Some (u "Python, SQL.")]
  end.
Definition toy_get_text (pg : option text) : exn + text :=
  match pg with
  | Some t => inr t
  | None => inl (LibraryError 3)
  end.

(** A stand-in for the table of bound names: the names the script binds
    before line 280, and some of the builtins. *)
Definition toy_bound (name : text) : bool :=
  existsb (fun k => text_eqb name (u k))
    [ "st"; "genai"; "pymupdf"; "os"; "load_dotenv"; "re"; "FPDF"; "tempfile";
      "io"; "base64"; "plt"; "sns"; "pd"; "BytesIO"; "GOOGLE_API_KEY"; "PROMPT";
      "extract_text_from_pdf"; "analyze_resume"; "extract_match_percentage";
      "generate_pdf_report"; "generate_cover_letter_pdf"; "create_radar_chart";
      "create_bar_chart"; "uploaded_file"; "job_description"; "analyze_button";
      "resume_text"; "analysis"; "match_score"; "pdf_report_bytes";
      "match_bar_chart"; "skills_match"; "exit"; "quit"; "print"; "open";
      "eval"; "exec"; "len"; "int"; "float"; "str"; "dict"; "list"; "set";
      "min"; "max" ]%string.

(** A stand-in for the Gemini client: one model is known, and it answers
    every prompt alike. *)
Definition toy_model (name : text) : exn + unit :=
  if text_eqb name (u "gemini-2.0-flash") then inr tt else inl (LibraryError 4).
Definition toy_generate_content (m : unit) (prompt : text) : exn + text :=
  inr (u "Match: 75%").
Definition toy_response_text (r : text) : exn + text := inr r.

(** * Properties *)

(** ** Lists and prefixes *)

Lemma strip_prefix_app (p s : text) : strip_prefix p (p ++ s) = Some s.
Proof.
  induction p as [|a p IH]; simpl; [reflexivity|].
  rewrite N.eqb_refl. exact IH.
Qed.

Lemma strip_prefix_some (p s r : text) : strip_prefix p s = Some r -> s = p ++ r.
Proof.
  revert s. induction p as [|a p IH]; intros s H; simpl in H.
  - injection H as <-. reflexivity.
  - destruct s as [|b s]; [discriminate|].
    destruct (N.eqb_spec a b) as [<-|]; [|discriminate].
    simpl. f_equal. apply IH. exact H.
Qed.

Lemma strip_prefix_none (p s : text) :
  strip_prefix p s = None -> forall r, s <> p ++ r.
Proof.
  intros H r ->. rewrite strip_prefix_app in H. discriminate.
Qed.

Lemma firstn_consumed (A : Type) (a b : list A) :
  firstn (length (a ++ b) - length b) (a ++ b) = a.
Proof.
  rewrite length_app, Nat.add_sub.
  rewrite firstn_app, Nat.sub_diag, firstn_all. simpl. apply app_nil_r.
Qed.

Lemma orelse_none_r (A : Type) (x : option A) : orelse x None = x.
Proof. destruct x; reflexivity. Qed.

(** ** [re.search] finds the leftmost position that matches *)

Lemma re_search_first (d : bool) (r : regex) (p q : text) (m : re_match) :
  match_here d r q = Some m ->
  (forall p' q', p ++ q = p' ++ q' -> length p' < length p ->
                 match_here d r q' = None) ->
  re_search d r (p ++ q) = Some m.
Proof.
  induction p as [|a p IH]; intros Hm Hbefore.
  - simpl. destruct q; simpl; rewrite Hm; reflexivity.
  - simpl. rewrite (Hbefore [] (a :: p ++ q)); [|reflexivity|simpl; lia].
    simpl. apply IH; [exact Hm|].
    intros p' q' E L. apply (Hbefore (a :: p') q').
    + simpl. rewrite E. reflexivity.
    + simpl. lia.
Qed.

Lemma re_search_none (d : bool) (r : regex) (s : text) :
  (forall p q, s = p ++ q -> match_here d r q = None) ->
  re_search d r s = None.
Proof.
  induction s as [|a s IH]; intros H.
  - simpl. rewrite (H [] []); reflexivity.
  - simpl. rewrite (H [] (a :: s)); [|reflexivity]. simpl.
    apply IH. intros p q ->. apply (H (a :: p) q). reflexivity.
Qed.

Lemma re_search_some (d : bool) (r : regex) (s : text) (m : re_match) :
  re_search d r s = Some m ->
  exists p q, s = p ++ q /\ match_here d r q = Some m /\
    (forall p' q', s = p' ++ q' -> length p' < length p ->
                   match_here d r q' = None).
Proof.
  induction s as [|a s IH]; intros H.
  - simpl in H. exists [], []. repeat split.
    + destruct (match_here d r []); [exact H|discriminate].
    + intros p' q' _ L. simpl in L. lia.
  - simpl in H. destruct (match_here d r (a :: s)) as [m0|] eqn:E.
    + simpl in H. exists [], (a :: s). repeat split.
      * rewrite E. exact H.
      * intros p' q' _ L. simpl in L. lia.
    + simpl in H. destruct (IH H) as (p & q & -> & Hm & Hb).
      exists (a :: p), q. repeat split; [exact Hm|].
      intros p' q' E' L. destruct p' as [|b p'].
      * simpl in E'. subst q'. exact E.
      * simpl in E'. injection E' as -> E'. apply (Hb p' q' E').
        simpl in L. lia.
Qed.

(** ** The percentage pattern *)


Lemma rep_exhausted (A : Type) (d : bool) (k : cls) (s : text) (K : text -> option A) :
  rep d k true 0 (Some 0) s K = K s.
Proof. destruct s; reflexivity. Qed.

Lemma rep_digits_inv (A : Type) (s : text) (K : text -> option A) (x : A) :
  rep false ClsDigit true 1 (Some 3) s K = Some x ->
  exists ds rest, s = ds ++ rest /\ score_token ds /\ K rest = Some x.
Proof.
  unfold score_token.
  destruct s as [|c1 s]; simpl; [discriminate|].
  destruct (is_digit c1) eqn:D1; [|discriminate].
  destruct s as [|c2 s]; simpl.
  { intros H. exists [c1], []. simpl. rewrite D1. repeat split; auto. }
  destruct (is_digit c2) eqn:D2; simpl.
  2:{ intros H. exists [c1], (c2 :: s). simpl. rewrite D1. repeat split; auto. }
  destruct s as [|c3 s]; simpl.
  { destruct (K []) eqn:E; simpl; intros H.
    - exists [c1; c2], []. simpl. rewrite D1, D2, E. repeat split; auto.
    - exists [c1], [c2]. simpl. rewrite D1. repeat split; auto. }
  destruct (is_digit c3) eqn:D3; simpl; rewrite ?rep_exhausted.
  - destruct (K s) eqn:E3; simpl.
    { intros H. exists [c1; c2; c3], s. simpl. rewrite D1, D2, D3, E3.
      repeat split; auto. }
    destruct (K (c3 :: s)) eqn:E2; simpl; intros H.
    + exists [c1; c2], (c3 :: s). simpl. rewrite D1, D2, E2. repeat split; auto.
    + exists [c1], (c2 :: c3 :: s). simpl. rewrite D1. repeat split; auto.
  - destruct (K (c3 :: s)) eqn:E2; simpl; intros H.
    + exists [c1; c2], (c3 :: s). simpl. rewrite D1, D2, E2. repeat split; auto.
    + exists [c1], (c2 :: c3 :: s). simpl. rewrite D1. repeat split; auto.
Qed.

Lemma rep_digits_greedy (A : Type) (ds : text) (c : char) (rest : text)
    (K : text -> option A) (x : A) :
  score_token ds -> is_digit c = false -> K (c :: rest) = Some x ->
  rep false ClsDigit true 1 (Some 3) (ds ++ c :: rest) K = Some x.
Proof.
  intros [[L1 L3] D] Dc HK.
  destruct ds as [|c1 [|c2 [|c3 [|c4 ds]]]]; simpl in L1, L3; try lia;
    simpl in D; repeat (apply andb_prop in D; destruct D as [? D]);
    simpl; repeat match goal with H : is_digit _ = _ |- _ => rewrite H end;
    simpl; rewrite ?Dc; simpl; rewrite ?rep_exhausted, HK; reflexivity.
Qed.

Lemma match_here_score (s : text) :
  match_here false score_re s = rep false ClsDigit true 1 (Some 3) s (score_cont s).
Proof. reflexivity. Qed.

Lemma score_match_inv (s : text) (m : re_match) :
  match_here false score_re s = Some m ->
  exists ds rest, s = ds ++ PERCENT :: rest /\ score_token ds /\ group1 m = Some ds.
Proof.
  rewrite match_here_score. intros H.
  apply rep_digits_inv in H. destruct H as (ds & r & -> & T & H).
  unfold score_cont in H.
  destruct (strip_prefix [PERCENT] r) as [rest|] eqn:E; [|discriminate].
  apply strip_prefix_some in E. subst r.
  exists ds, rest. repeat split; try apply T.
  injection H as <-. simpl group1.
  rewrite firstn_consumed. reflexivity.
Qed.

Lemma score_match_token (ds rest : text) :
  score_token ds ->
  match_here false score_re (ds ++ PERCENT :: rest) = Some {| group1 := Some ds |}.
Proof.
  intros T. rewrite match_here_score.
  apply rep_digits_greedy; [exact T| |].
  - unfold is_digit. rewrite percent_not_digit. reflexivity.
  - unfold score_cont.
    change (strip_prefix [PERCENT] (PERCENT :: rest)) with (Some rest).
    rewrite firstn_consumed. reflexivity.
Qed.

Lemma re_search_none_inv (d : bool) (r : regex) (s : text) :
  re_search d r s = None -> forall p q, s = p ++ q -> match_here d r q = None.
Proof.
  intros H p q ->. revert H. induction p as [|a p IH]; intros H.
  - simpl in H. destruct q; simpl in H;
      destruct (match_here d r _); [discriminate|reflexivity|discriminate|reflexivity].
  - simpl in H. destruct (match_here d r (a :: p ++ q)); [discriminate|].
    simpl in H. apply IH. exact H.
Qed.

Lemma digits_value_some (ds : text) :
  forallb is_digit ds = true -> forall acc, exists v, digits_value acc ds = Some v.
Proof.
  induction ds as [|c ds IH]; intros D acc; simpl.
  - eauto.
  - simpl in D. apply andb_prop in D. destruct D as [Dc D].
    unfold is_digit in Dc. destruct (digit_value c); [|discriminate].
    apply IH. exact D.
Qed.

Lemma py_int_token (ds : text) :
  score_token ds -> exists v, digits_value 0 ds = Some v /\ py_int (Some ds) = Returns v.
Proof.
  intros [[L _] D]. destruct (digits_value_some ds D 0) as [v E].
  exists v. split; [exact E|].
  destruct ds; [simpl in L; lia|]. unfold py_int. rewrite E. reflexivity.
Qed.

Lemma no_percent_no_token (t : text) :
  ~ In PERCENT t -> forall pre ds, ~ token_at t pre ds.
Proof.
  intros H pre ds [_ [rest ->]]. apply H.
  apply in_or_app. right. apply in_or_app. right. left. reflexivity.
Qed.

(** C6: a text with no one-to-three-digit run followed by a percent sign
    makes [extract_match_percentage] return [None]; it does not raise. *)
Theorem extract_match_percentage_absent (t : text) :
  (forall pre ds, ~ token_at t pre ds) ->
  extract_match_percentage t = Returns None.
Proof.
  intros H. unfold extract_match_percentage.
  destruct (truthy t); [|reflexivity].
  rewrite re_search_none; [reflexivity|].
  intros p q ->.
  destruct (match_here false score_re q) as [m|] eqn:E; [|reflexivity].
  apply score_match_inv in E. destruct E as (ds & rest & -> & T & _).
  exfalso. apply (H p ds). split; [exact T|]. exists rest. reflexivity.
Qed.

(** The leftmost occurrence is the one that is read, and [int] is applied to
    its digits. *)
Lemma leftmost_token_read (t : text) :
  (exists pre ds, token_at t pre ds) ->
  exists pre ds v,
    token_at t pre ds /\
    (forall pre' ds', token_at t pre' ds' -> length pre <= length pre') /\
    digits_value 0 ds = Some v /\
    extract_match_percentage t = Returns (Some (Z.min v 100)).
Proof.
  intros (pre0 & ds0 & T0 & rest0 & E0).
  unfold extract_match_percentage.
  assert (Ht : truthy t = true).
  { subst t. destruct pre0; [|reflexivity].
    destruct ds0; [|reflexivity]. destruct T0 as [[L _] _]. simpl in L. lia. }
  rewrite Ht.
  destruct (re_search false score_re t) as [m|] eqn:S.
  - apply re_search_some in S. destruct S as (p & q & Et & Hm & Hbefore).
    apply score_match_inv in Hm. destruct Hm as (ds & rest & -> & T & G).
    destruct (py_int_token ds T) as (v & Ev & Ei).
    exists p, ds, v. split; [|split; [|split]].
    + split; [exact T|]. exists rest. exact Et.
    + intros pre' ds' [T' [rest' E']].
      destruct (Nat.le_gt_cases (length p) (length pre')) as [L|L]; [exact L|].
      exfalso. specialize (Hbefore pre' (ds' ++ PERCENT :: rest') E' L).
      rewrite (score_match_token ds' rest' T') in Hbefore. discriminate.
    + exact Ev.
    + cbv beta iota. rewrite G.
      replace (py_int (Some ds)) with (@Returns Z v) by (symmetry; exact Ei).
      reflexivity.
  - exfalso.
    pose proof (re_search_none_inv _ _ _ S pre0 (ds0 ++ PERCENT :: rest0) E0) as N.
    rewrite (score_match_token ds0 rest0 T0) in N. discriminate.
Qed.

(** [int] on a row of digits gives the number the digits write. *)
Lemma digits_value_decimal (ds : text) (dl : list Z) :
  digits_of ds dl ->
  forall acc,
    digits_value acc ds = Some (acc * 10 ^ Z.of_nat (length dl) + decimal dl)%Z.
Proof.
  induction 1 as [|c d ds dl E F IH]; intros acc.
  - cbn [digits_value decimal length]. f_equal. change (10 ^ Z.of_nat 0)%Z with 1%Z. lia.
  - cbn [digits_value]. rewrite E, IH. f_equal. cbn [decimal length].
    rewrite Nat2Z.inj_succ, Z.pow_succ_r by lia. ring.
Qed.

Lemma digits_of_is_digit (ds : text) (dl : list Z) :
  digits_of ds dl -> forallb is_digit ds = true.
Proof.
  induction 1 as [|c d ds dl E F IH]; [reflexivity|].
  cbn [forallb]. unfold is_digit at 1. rewrite E. exact IH.
Qed.

Lemma digits_of_exists (ds : text) :
  forallb is_digit ds = true -> exists dl, digits_of ds dl.
Proof.
  induction ds as [|c ds IH]; intros D.
  - exists []. constructor.
  - cbn [forallb] in D. apply andb_prop in D. destruct D as [Dc D].
    destruct (IH D) as [dl F]. unfold is_digit in Dc.
    destruct (digit_value c) as [d|] eqn:E; [|discriminate Dc].
    exists (d :: dl). constructor; assumption.
Qed.

Lemma app_same_length (A : Type) (a c b d : list A) :
  a ++ b = c ++ d -> length a = length c -> a = c /\ b = d.
Proof.
  revert c. induction a as [|x a IH]; intros [|y c] E L; try discriminate L.
  - split; [reflexivity|exact E].
  - simpl in E. injection E as <- E. simpl in L. injection L as L.
    destruct (IH c E L) as [-> ->]. split; reflexivity.
Qed.

(** Digits followed by a percent sign: the percent sign tells where the
    digits end. *)
Lemma digits_before_percent (ds ds' r r' : text) :
  forallb is_digit ds = true -> forallb is_digit ds' = true ->
  ds ++ PERCENT :: r = ds' ++ PERCENT :: r' -> ds = ds'.
Proof.
  assert (Pd : is_digit PERCENT = false)
    by (unfold is_digit; rewrite percent_not_digit; reflexivity).
  revert ds'. induction ds as [|c ds IH]; intros [|c' ds'] D D' E.
  - reflexivity.
  - simpl in E. injection E as <- _. cbn [forallb] in D'.
    rewrite Pd in D'. discriminate D'.
  - simpl in E. injection E as -> _. cbn [forallb] in D.
    rewrite Pd in D. discriminate D.
  - simpl in E. injection E as <- E. cbn [forallb] in D, D'.
    apply andb_prop in D. apply andb_prop in D'.
    f_equal. apply (IH ds'); [apply D|apply D'|exact E].
Qed.

(** C1: when the text holds one to three decimal digits followed by a
    percent sign, [extract_match_percentage] returns the number the digits of
    the leftmost such occurrence write, cut down to 100 when it is larger;
    and among the occurrences there is a leftmost one. *)
Theorem extract_match_percentage_leftmost (t : text) :
  (forall pre ds dl,
     token_at t pre ds ->
     (forall pre' ds', token_at t pre' ds' -> length pre <= length pre') ->
     digits_of ds dl ->
     extract_match_percentage t = Returns (Some (Z.min (decimal dl) 100))) /\
  ((exists pre ds, token_at t pre ds) ->
   exists pre ds dl,
     token_at t pre ds /\
     (forall pre' ds', token_at t pre' ds' -> length pre <= length pre') /\
     digits_of ds dl).
Proof.
  split.
  - intros pre ds dl T Hmin F.
    destruct (leftmost_token_read t (ex_intro _ pre (ex_intro _ ds T)))
      as (p0 & ds0 & v & T0 & Hmin0 & Ev & R).
    assert (L : length pre = length p0).
    { apply Nat.le_antisymm; [exact (Hmin _ _ T0)|exact (Hmin0 _ _ T)]. }
    destruct T as [[_ D] [rest E]]. destruct T0 as [[_ D0] [rest0 E0]].
    rewrite E in E0. destruct (app_same_length _ _ _ _ _ E0 L) as [_ E1].
    apply (digits_before_percent _ _ _ _ D D0) in E1. subst ds0.
    rewrite (digits_value_decimal ds dl F 0) in Ev. injection Ev as <-.
    rewrite R. reflexivity.
  - intros H.
    destruct (leftmost_token_read t H) as (p0 & ds0 & v & T0 & Hmin0 & _ & _).
    destruct (digits_of_exists ds0 (proj2 (proj1 T0))) as [dl F].
    exists p0, ds0, dl. split; [exact T0|]. split; [exact Hmin0|exact F].
Qed.

(** ** A percentage embedded in a text *)


Lemma is_digit_ascii (ds : text) :
  forallb is_ascii_digit ds = true -> forallb is_digit ds = true.
Proof.
  induction ds as [|c ds IH]; simpl; [reflexivity|].
  intros H. apply andb_prop in H. destruct H as [Hc H].
  unfold is_digit at 1. rewrite (digit_value_ascii c Hc). apply IH. exact H.
Qed.

Lemma digits_value_ascii (ds : text) :
  forallb is_ascii_digit ds = true ->
  forall acc,
    digits_value acc ds =
    Some (fold_left (fun a c => (10 * a + (Z.of_N c - 48))%Z) ds acc).
Proof.
  induction ds as [|c ds IH]; simpl; [reflexivity|].
  intros H acc. apply andb_prop in H. destruct H as [Hc H].
  rewrite (digit_value_ascii c Hc). apply IH. exact H.
Qed.

Lemma render_ok_100 (n : N) : (n <= 100)%N -> render_ok n = true.
Proof.
  intros H.
  assert (A : forallb render_ok (map N.of_nat (seq 0 101)) = true)
    by (vm_compute; reflexivity).
  rewrite forallb_forall in A. apply A.
  rewrite <- (N2Nat.id n). apply in_map. apply in_seq. lia.
Qed.

Lemma render_nat_token (n : N) :
  (n <= 100)%N ->
  score_token (render_nat n) /\ digits_value 0 (render_nat n) = Some (Z.of_N n).
Proof.
  intros H. pose proof (render_ok_100 n H) as R. unfold render_ok in R.
  cbv zeta in R.
  apply andb_prop in R. destruct R as [R V].
  apply andb_prop in R. destruct R as [R D].
  apply andb_prop in R. destruct R as [L1 L3].
  apply Nat.leb_le in L1. apply Nat.leb_le in L3. apply Z.eqb_eq in V.
  split.
  - split; [lia|]. apply is_digit_ascii. exact D.
  - rewrite (digits_value_ascii _ D). unfold decimal_value in V.
    rewrite V. reflexivity.
Qed.

Lemma token_digits_last (ds l l2 : text) (c : char) :
  forallb is_digit ds = true -> ds = (l ++ [c]) ++ l2 -> is_digit c = true.
Proof.
  intros D ->. rewrite forallb_forall in D. apply D.
  apply in_or_app. left. apply in_or_app. right. left. reflexivity.
Qed.

(** C5, amended: for [n] in [0, 100], a prefix that holds no occurrence of
    the pattern and does not end in a decimal digit, and any suffix,
    [extract_match_percentage (prefix + str(n) + "%" + suffix)] is [n]. *)
Theorem extract_match_percentage_embedded (n : N) (pre suf : text) :
  (n <= 100)%N ->
  (forall p ds, ~ token_at pre p ds) ->
  (forall p c, pre = p ++ [c] -> is_digit c = false) ->
  extract_match_percentage (pre ++ render_nat n ++ PERCENT :: suf)
  = Returns (Some (Z.of_N n)).
Proof.
  intros Hn Hno Hlast.
  destruct (render_nat_token n Hn) as [T V].
  unfold extract_match_percentage.
  assert (Ht : truthy (pre ++ render_nat n ++ PERCENT :: suf) = true).
  { destruct pre; [|reflexivity]. destruct (render_nat n); reflexivity. }
  rewrite Ht.
  rewrite (re_search_first false score_re pre (render_nat n ++ PERCENT :: suf)
             {| group1 := Some (render_nat n) |}).
  - cbv beta iota. simpl group1.
    destruct (py_int_token (render_nat n) T) as (v & Ev & Ei).
    replace (py_int (Some (render_nat n))) with (@Returns Z v)
      by (symmetry; exact Ei).
    simpl. rewrite V in Ev. injection Ev as <-.
    rewrite Z.min_l by lia. reflexivity.
  - apply score_match_token. exact T.
  - intros p' q' E L.
    destruct (match_here false score_re q') as [m|] eqn:M; [|reflexivity].
    exfalso.
    apply score_match_inv in M. destruct M as (ds & rest & -> & Tds & _).
    apply app_eq_app in E. destruct E as [l [[E1 E2]|[E1 E2]]].
    2:{ subst p'. rewrite length_app in L. lia. }
    assert (Hl : l <> []).
    { intros ->. rewrite app_nil_r in E1. subst p'. lia. }
    destruct (exists_last Hl) as (l0 & c & El).
    assert (Hc : is_digit c = false).
    { apply (Hlast (p' ++ l0) c). rewrite E1, El. apply app_assoc. }
    symmetry in E2. apply app_eq_app in E2.
    destruct E2 as [l2 [[E3 E4]|[E3 E4]]].
    + (* the digits end inside the prefix *)
      destruct l2 as [|c2 l2].
      * rewrite app_nil_r in E3.
        rewrite (token_digits_last ds l0 [] c (proj2 Tds)) in Hc; [discriminate|].
        rewrite app_nil_r, <- El. symmetry. exact E3.
      * simpl in E4. injection E4 as <- _.
        apply (Hno p' ds). split; [exact Tds|].
        exists l2. rewrite E1, E3. reflexivity.
    + (* the digits run over the end of the prefix *)
      rewrite (token_digits_last ds l0 l2 c (proj2 Tds)) in Hc; [discriminate|].
      rewrite <- El. exact E3.
Qed.

(** ** Repetitions *)

Lemma rep_space_total (A : Type) (d : bool) (s : text) (K : text -> option A) :
  (forall x, K x <> None) ->
  rep d ClsSpace true 0 None s K = K (lstrip s).
Proof.
  intros HK. induction s as [|c s IH]; simpl; [reflexivity|].
  destruct (is_space c); simpl; [|reflexivity].
  rewrite IH. destruct (K (lstrip s)) eqn:E; [reflexivity|].
  exfalso. exact (HK _ E).
Qed.

Lemma rep_space_guarded (A : Type) (d : bool) (s : text) (K : text -> option A) :
  (forall c x, is_space c = true -> K (c :: x) = None) ->
  rep d ClsSpace true 0 None s K = K (lstrip s).
Proof.
  intros HK. induction s as [|c s IH]; simpl; [reflexivity|].
  destruct (is_space c) eqn:Sc; simpl; [|reflexivity].
  rewrite IH, (HK c s Sc). apply orelse_none_r.
Qed.

Lemma rep_lazy_total (A : Type) (s : text) (J : text -> option A) :
  J [] <> None -> rep true ClsAny false 0 None s J <> None.
Proof.
  intros H0. induction s as [|c s IH]; simpl.
  - destruct (J []); [discriminate|exact H0].
  - destruct (J (c :: s)); [discriminate|]. simpl. exact IH.
Qed.

(** A lazy [.*?] stops at the first place where what follows matches. *)
Lemma rep_lazy_cut (A : Type) (d : bool) (content tail : text)
    (J : text -> option A) (x : A) :
  forallb (cls_match d ClsAny) content = true ->
  (forall p q, content = p ++ q -> q <> [] -> J (q ++ tail) = None) ->
  J tail = Some x ->
  rep d ClsAny false 0 None (content ++ tail) J = Some x.
Proof.
  intros Hc Hno Ht. induction content as [|c content IH].
  - simpl. destruct tail; simpl; rewrite Ht; reflexivity.
  - simpl in Hc. apply andb_prop in Hc. destruct Hc as [Hc1 Hc].
    change ((c :: content) ++ tail) with (c :: content ++ tail).
    simpl. simpl in Hc1. rewrite Hc1.
    pose proof (Hno [] (c :: content) eq_refl) as H1.
    change ((c :: content) ++ tail) with (c :: content ++ tail) in H1.
    rewrite H1 by discriminate.
    simpl. apply IH; [exact Hc|].
    intros p q -> Hq. apply (Hno (c :: p) q); [reflexivity|exact Hq].
Qed.

(** Without [re.DOTALL] a lazy [.*?] cannot go past a line feed. *)
Lemma rep_lazy_line (A : Type) (b rest : text) (J : text -> option A) :
  (forall p q, b = p ++ q -> J (q ++ LF :: rest) = None) ->
  rep false ClsAny false 0 None (b ++ LF :: rest) J = None.
Proof.
  intros Hno. induction b as [|c b IH].
  - pose proof (Hno [] [] eq_refl) as H1. simpl in H1. simpl.
    rewrite H1. reflexivity.
  - change ((c :: b) ++ LF :: rest) with (c :: b ++ LF :: rest). simpl.
    pose proof (Hno [] (c :: b) eq_refl) as H1.
    change ((c :: b) ++ LF :: rest) with (c :: b ++ LF :: rest) in H1.
    rewrite H1. simpl.
    destruct (negb (c =? LF)%N); [|reflexivity].
    apply IH. intros p q ->. apply (Hno (c :: p) q). reflexivity.
Qed.

(** ** [str.strip] *)

Lemma lstrip_split (x : text) :
  exists ws, x = ws ++ lstrip x /\ forallb is_space ws = true.
Proof.
  induction x as [|c x (ws & E & W)]; simpl.
  - exists []. split; reflexivity.
  - destruct (is_space c) eqn:Sc.
    + exists (c :: ws). simpl. rewrite Sc, W. rewrite <- E. split; reflexivity.
    + exists []. split; reflexivity.
Qed.

Lemma lstrip_head (x y : text) (c : char) :
  lstrip x = c :: y -> is_space c = false.
Proof.
  induction x as [|a x IH]; simpl; [discriminate|].
  destruct (is_space a) eqn:Sa; [exact IH|].
  intros E. injection E as <- _. exact Sa.
Qed.

Lemma lstrip_nonspace (x : text) (c : char) :
  is_space c = false -> lstrip (c :: x) = c :: x.
Proof. intros H. simpl. rewrite H. reflexivity. Qed.

Lemma lstrip_idem (x : text) : lstrip (lstrip x) = lstrip x.
Proof.
  destruct (lstrip x) as [|c y] eqn:E; [reflexivity|].
  apply lstrip_nonspace. exact (lstrip_head x y c E).
Qed.

Lemma lstrip_app_nonspace (x y : text) (c : char) :
  is_space c = false -> lstrip (x ++ c :: y) = lstrip x ++ c :: y.
Proof.
  intros H. induction x as [|a x IH]; simpl.
  - rewrite H. reflexivity.
  - destruct (is_space a); [exact IH|reflexivity].
Qed.

Lemma lstrip_spaces (ws x : text) :
  forallb is_space ws = true -> lstrip (ws ++ x) = lstrip x.
Proof.
  induction ws as [|a ws IH]; simpl; [reflexivity|].
  intros H. apply andb_prop in H. destruct H as [Ha H].
  rewrite Ha. apply IH. exact H.
Qed.

Lemma rstrip_app_space (x : text) (c : char) :
  is_space c = true -> rstrip (x ++ [c]) = rstrip x.
Proof.
  intros H. unfold rstrip. rewrite rev_app_distr. simpl. rewrite H. reflexivity.
Qed.

Lemma strip_lstrip (x : text) : strip (lstrip x) = strip x.
Proof. unfold strip. rewrite lstrip_idem. reflexivity. Qed.

(** ** The cover-letter rule *)

Lemma match_here_cover (s : text) :
  match_here true cover_re s =
  match strip_prefix COVER_LABEL s with
  | Some s1 => rep true ClsSpace true 0 None s1 cover_body
  | None => None
  end.
Proof. reflexivity. Qed.

Lemma cover_stop_marker (g : option text) (m tail : text) :
  is_marker m -> cover_stop g (m ++ tail) = Some {| group1 := g |}.
Proof.
  unfold cover_stop. intros [-> | ->]; cbn [rmatch].
  - rewrite strip_prefix_app. reflexivity.
  - rewrite strip_prefix_app.
    destruct (strip_prefix ATS_MARKER (INTERVIEW_MARKER ++ tail)); reflexivity.
Qed.

Lemma cover_stop_none (g : option text) (s : text) :
  (forall m q, is_marker m -> s <> m ++ q) ->
  s <> [] -> s <> [LF] ->
  cover_stop g s = None.
Proof.
  intros Hm H0 H1. unfold cover_stop. cbn [rmatch].
  destruct (strip_prefix ATS_MARKER s) as [r|] eqn:E1.
  { apply strip_prefix_some in E1. exfalso. apply (Hm ATS_MARKER r); [left; reflexivity|exact E1]. }
  destruct (strip_prefix INTERVIEW_MARKER s) as [r|] eqn:E2.
  { apply strip_prefix_some in E2. exfalso. apply (Hm INTERVIEW_MARKER r); [right; reflexivity|exact E2]. }
  simpl. destruct s as [|c [|c' s]]; [contradiction| |reflexivity].
  destruct (N.eqb_spec c LF) as [->|]; [contradiction|reflexivity].
Qed.

Lemma cover_body_total (s2 : text) : cover_body s2 <> None.
Proof. apply rep_lazy_total. discriminate. Qed.

Lemma marker_head (m : text) :
  is_marker m -> exists c c' m', m = c :: c' :: m' /\ is_space c = false.
Proof.
  intros [-> | ->]; eexists; eexists; eexists; (split; [reflexivity|reflexivity]).
Qed.

Lemma cover_match_marker (body m tail : text) :
  is_marker m ->
  (forall m' p', is_marker m' -> occurs_at m' (body ++ m ++ tail) p' ->
                 length body <= length p') ->
  match_here true cover_re (COVER_LABEL ++ body ++ m ++ tail)
  = Some {| group1 := Some (lstrip body) |}.
Proof.
  intros Hm Hfirst. rewrite match_here_cover, strip_prefix_app.
  rewrite (rep_space_total _ _ _ _ cover_body_total).
  destruct (marker_head m Hm) as (c & c' & m' & Em & Sc).
  assert (El : lstrip (body ++ m ++ tail) = lstrip body ++ m ++ tail).
  { rewrite Em. simpl. apply lstrip_app_nonspace. exact Sc. }
  rewrite El. unfold cover_body.
  apply rep_lazy_cut.
  - apply forallb_forall. intros; reflexivity.
  - intros p q Ec Hq. apply cover_stop_none.
    + intros m2 r Hm2 E.
      destruct (lstrip_split body) as (ws & Eb & _).
      assert (O : occurs_at m2 (body ++ m ++ tail) (ws ++ p)).
      { exists r. rewrite Eb at 1. rewrite Ec, <- !app_assoc.
        rewrite <- E. reflexivity. }
      apply (Hfirst m2 _ Hm2) in O.
      assert (L : length body = length ws + (length p + length q)).
      { rewrite Eb at 1. rewrite Ec. rewrite !length_app. reflexivity. }
      rewrite length_app in O. destruct q; [contradiction|]. simpl in L. lia.
    + destruct q; [contradiction|discriminate].
    + rewrite Em. destruct q as [|a [|b q]]; [contradiction|discriminate|discriminate].
  - rewrite (cover_stop_marker _ m tail Hm). rewrite firstn_consumed. reflexivity.
Qed.

Lemma cover_match_end (rest : text) :
  (forall m p, is_marker m -> ~ occurs_at m rest p) ->
  exists g, match_here true cover_re (COVER_LABEL ++ rest) = Some {| group1 := Some g |}
            /\ strip g = strip rest.
Proof.
  intros Hno. rewrite match_here_cover, strip_prefix_app.
  rewrite (rep_space_total _ _ _ _ cover_body_total).
  destruct (lstrip_split rest) as (ws & Er & _).
  assert (Hsuf : forall p q m r, is_marker m -> lstrip rest = p ++ q -> q <> m ++ r).
  { intros p q m r Hm E ->. apply (Hno m (ws ++ p) Hm). exists r.
    rewrite Er at 1. rewrite E, <- app_assoc. reflexivity. }
  unfold cover_body.
  destruct (lstrip rest) as [|a s2] eqn:E2.
  { exists []. split; [reflexivity|]. unfold strip. rewrite E2. reflexivity. }
  pose proof (lstrip_head rest s2 a E2) as Sa.
  assert (Hne : a :: s2 <> []) by discriminate.
  destruct (exists_last Hne) as (s0 & c & El).
  destruct (N.eqb_spec c LF) as [->|Hc].
  - (* the text ends in a line feed: [$] matches before it *)
    exists s0. split.
    + rewrite El. apply rep_lazy_cut.
      * apply forallb_forall. intros; reflexivity.
      * intros p q Ec Hq. apply cover_stop_none.
        -- intros m r Hm E. destruct (marker_head m Hm) as (c1 & c2 & m' & Em & _).
           assert (exists r', q = m ++ r') as [r' Eq].
           { subst m. destruct q as [|q1 q]; [contradiction|].
             (* the marker cannot end at the last line feed *)
             revert E. clear - Hm. intros E.
             assert (Hl : forall x, In x (c1 :: c2 :: m') -> x <> LF).
             { destruct Hm as [Hm|Hm]; rewrite Hm; intros x Hx;
                 repeat (destruct Hx as [<-|Hx]; [discriminate|]); contradiction. }
             assert (Elen : length ((q1 :: q) ++ [LF]) = length ((c1 :: c2 :: m') ++ r))
               by (rewrite E; reflexivity).
             destruct r as [|r1 r] using rev_ind.
             - rewrite app_nil_r in E. exfalso.
               assert (In LF (c1 :: c2 :: m')) as HI.
               { rewrite <- E. apply in_or_app. right. left. reflexivity. }
               exact (Hl LF HI eq_refl).
             - rewrite app_assoc in E. apply app_inj_tail in E. destruct E as [E _].
               exists r. exact E. }
           apply (Hsuf p (q ++ [LF]) m (r' ++ [LF]) Hm).
           ++ rewrite El, Ec, <- app_assoc. reflexivity.
           ++ rewrite Eq, <- app_assoc. reflexivity.
        -- destruct q; [contradiction|discriminate].
        -- destruct q as [|q1 [|q2 q]]; [contradiction|discriminate|discriminate].
      * unfold cover_stop. cbn [rmatch]. rewrite firstn_consumed. reflexivity.
    + unfold strip. rewrite E2, El.
      rewrite rstrip_app_space by reflexivity.
      destruct s0 as [|b s0].
      * simpl in El. injection El as -> _. discriminate.
      * simpl in El. injection El as <- _. rewrite lstrip_nonspace by exact Sa.
        reflexivity.
  - exists (a :: s2). split.
    + rewrite <- (app_nil_r (a :: s2)) at 1. apply rep_lazy_cut.
      * apply forallb_forall. intros; reflexivity.
      * intros p q Ec Hq. rewrite app_nil_r. apply cover_stop_none.
        -- intros m r Hm. apply (Hsuf p q m r Hm). exact Ec.
        -- exact Hq.
        -- intros ->. rewrite El in Ec. apply app_inj_tail in Ec.
           destruct Ec as [_ Ec]. apply Hc. exact Ec.
      * unfold cover_stop. cbn [rmatch].
        change (length (@nil char)) with 0. rewrite Nat.sub_0_r, firstn_all.
        reflexivity.
    + rewrite <- E2. apply strip_lstrip.
Qed.

Lemma cover_no_label (q : text) :
  (forall r, q <> COVER_LABEL ++ r) -> match_here true cover_re q = None.
Proof.
  intros H. rewrite match_here_cover.
  destruct (strip_prefix COVER_LABEL q) as [r|] eqn:E; [|reflexivity].
  apply strip_prefix_some in E. exfalso. exact (H r E).
Qed.

Lemma cover_search_first (pre rest : text) (m : re_match) :
  (forall p, occurs_at COVER_LABEL (pre ++ COVER_LABEL ++ rest) p ->
             length pre <= length p) ->
  match_here true cover_re (COVER_LABEL ++ rest) = Some m ->
  re_search true cover_re (pre ++ COVER_LABEL ++ rest) = Some m.
Proof.
  intros Hfirst Hm. apply re_search_first; [exact Hm|].
  intros p' q' E L. apply cover_no_label. intros r Eq. subst q'.
  assert (O : occurs_at COVER_LABEL (pre ++ COVER_LABEL ++ rest) p')
    by (exists r; exact E).
  apply Hfirst in O. lia.
Qed.

Lemma rstrip_split (x : text) :
  exists ws, x = rstrip x ++ ws /\ forallb is_space ws = true.
Proof.
  unfold rstrip. destruct (lstrip_split (rev x)) as (ws & E & W).
  exists (rev ws). split.
  - rewrite <- rev_app_distr, <- E, rev_involutive. reflexivity.
  - rewrite forallb_forall in *. intros c I. apply W. apply in_rev. exact I.
Qed.

Lemma strip_split (x : text) :
  exists a b, x = a ++ strip x ++ b /\
              forallb is_space a = true /\ forallb is_space b = true.
Proof.
  unfold strip. destruct (lstrip_split x) as (a & E & Wa).
  destruct (rstrip_split (lstrip x)) as (b & E' & Wb).
  exists a, b. rewrite <- E'. repeat split; assumption.
Qed.

Lemma rstrip_last (x y : text) (c : char) :
  rstrip x = y ++ [c] -> is_space c = false.
Proof.
  unfold rstrip. intros H.
  assert (E : lstrip (rev x) = c :: rev y).
  { rewrite <- (rev_involutive (lstrip (rev x))), H, rev_app_distr. reflexivity. }
  exact (lstrip_head _ _ _ E).
Qed.

Lemma strip_clean (x : text) :
  (forall c y, strip x = c :: y -> is_space c = false) /\
  (forall y c, strip x = y ++ [c] -> is_space c = false).
Proof.
  split.
  - intros c y H. unfold strip in H.
    destruct (rstrip_split (lstrip x)) as (ws & E & _). rewrite H in E.
    simpl in E. exact (lstrip_head _ _ _ E).
  - intros y c H. exact (rstrip_last _ _ _ H).
Qed.

(** [strip] cuts the white space off both ends, and nothing else does. *)
Lemma strip_trim (x : text) : trim_of x (strip x).
Proof.
  destruct (strip_split x) as (a & b & E & Wa & Wb).
  destruct (strip_clean x) as [Hh Hl].
  exists a, b. repeat split; assumption.
Qed.

Lemma trim_strip (x c : text) : trim_of x c -> strip x = c.
Proof.
  intros (a & b & -> & Wa & Wb & Hh & Hl). unfold strip.
  rewrite (lstrip_spaces a _ Wa).
  assert (Rb : forallb is_space (rev b) = true).
  { rewrite forallb_forall in *. intros z I. apply Wb. apply in_rev. exact I. }
  destruct c as [|h y].
  - cbn [app]. rewrite <- (app_nil_r b), (lstrip_spaces b [] Wb). reflexivity.
  - cbn [app]. rewrite (lstrip_nonspace _ h (Hh h y eq_refl)).
    change (h :: y ++ b) with ((h :: y) ++ b).
    unfold rstrip. rewrite rev_app_distr, (lstrip_spaces _ _ Rb).
    assert (N : h :: y <> []) by discriminate.
    destruct (exists_last N) as (y' & z & E). rewrite E, rev_app_distr.
    cbn [rev app]. rewrite (lstrip_nonspace _ z (Hl y' z E)).
    change (z :: rev y') with (rev [z] ++ rev y').
    rewrite <- rev_app_distr, rev_involutive. reflexivity.
Qed.

Lemma trim_of_unique (x c c' : text) : trim_of x c -> trim_of x c' -> c = c'.
Proof.
  intros H H'. rewrite <- (trim_strip x c H). apply trim_strip. exact H'.
Qed.

(** C4: without the label [Cover Letter:] there is no cover letter; with it,
    the cover letter is the text between the first label and the first
    [ATS Formatting Check:] or [Interview Questions:] after it, or the text
    up to the end when neither marker follows, in both cases without the
    white space at its two ends. *)
Theorem extractCoverLetter_spec :
  (forall t, (forall p, ~ occurs_at COVER_LABEL t p) ->
             extractCoverLetter t = None) /\
  (forall pre rest,
     (forall p, occurs_at COVER_LABEL (pre ++ COVER_LABEL ++ rest) p ->
                length pre <= length p) ->
     (forall body m tail,
        rest = body ++ m ++ tail -> is_marker m ->
        (forall m' p', is_marker m' -> occurs_at m' rest p' ->
                       length body <= length p') ->
        exists c,
          extractCoverLetter (pre ++ COVER_LABEL ++ rest) = Some c /\
          trim_of body c) /\
     ((forall m p, is_marker m -> ~ occurs_at m rest p) ->
      exists c,
        extractCoverLetter (pre ++ COVER_LABEL ++ rest) = Some c /\
        trim_of rest c)).
Proof.
  split; [|intros pre rest Hfirst; split].
  - intros t Hno. unfold extractCoverLetter.
    rewrite re_search_none; [reflexivity|].
    intros p q ->. apply cover_no_label. intros r Eq. subst q.
    apply (Hno p). exists r. reflexivity.
  - intros body m tail -> Hm Hnext. exists (strip body).
    split; [|apply strip_trim]. unfold extractCoverLetter.
    rewrite (cover_search_first pre _ _ Hfirst (cover_match_marker body m tail Hm Hnext)).
    simpl. rewrite strip_lstrip. reflexivity.
  - intros Hno. exists (strip rest).
    split; [|apply strip_trim]. unfold extractCoverLetter.
    destruct (cover_match_end rest Hno) as (g & Hg & Es).
    rewrite (cover_search_first pre _ _ Hfirst Hg).
    simpl. rewrite Es. reflexivity.
Qed.

Lemma starts_before_false (pat t : text) (n : nat) :
  starts_before pat t n = false ->
  forall p, occurs_at pat t p -> n <= length p.
Proof.
  revert t. induction n as [|n IH]; intros t H p [q E]; [lia|].
  simpl in H. destruct (strip_prefix pat t) eqn:Es; [discriminate H|].
  destruct p as [|a p].
  - simpl in E. subst t. rewrite strip_prefix_app in Es. discriminate Es.
  - simpl in E. subst t. simpl. apply le_n_S. apply (IH _ H). exists q. reflexivity.
Qed.

Lemma starts_before_never (pat t : text) :
  starts_before pat t (S (length t)) = false -> forall p, ~ occurs_at pat t p.
Proof.
  intros H p O. pose proof (starts_before_false _ _ _ H p O) as L.
  destruct O as [q ->]. rewrite length_app in L. lia.
Qed.

(** ** The skills pattern *)

Lemma match_here_skills (s : text) :
  match_here false skills_re s =
  match strip_prefix SKILLS_LABEL s with
  | Some s1 => rep false ClsSpace true 0 None s1 skills_body
  | None => None
  end.
Proof. reflexivity. Qed.

Lemma skills_body_space (c : char) (x : text) :
  is_space c = true -> skills_body (c :: x) = None.
Proof.
  intros H. unfold skills_body. cbn [strip_prefix].
  destruct (N.eqb_spec LBRACE c) as [<-|]; [discriminate H|reflexivity].
Qed.

Lemma skills_close_other (s2 : text) (c : char) (x : text) :
  c <> RBRACE -> skills_close s2 (c :: x) = None.
Proof.
  intros H. unfold skills_close. cbn [strip_prefix].
  destruct (N.eqb_spec RBRACE c) as [<-|]; [contradiction|reflexivity].
Qed.

Lemma skills_block_start (ws x : text) :
  forallb is_space ws = true ->
  match_here false skills_re (SKILLS_LABEL ++ ws ++ LBRACE :: x)
  = rep false ClsAny false 0 None x (skills_close (LBRACE :: x)).
Proof.
  intros W. rewrite match_here_skills, strip_prefix_app.
  rewrite (rep_space_guarded _ _ _ _ skills_body_space).
  rewrite (lstrip_spaces _ _ W), lstrip_nonspace by reflexivity.
  reflexivity.
Qed.

Lemma skills_match_payload (ws body rest : text) :
  forallb is_space ws = true -> ~ In RBRACE body -> ~ In LF body ->
  match_here false skills_re (SKILLS_LABEL ++ ws ++ (LBRACE :: body ++ [RBRACE]) ++ rest)
  = Some {| group1 := Some (LBRACE :: body ++ [RBRACE]) |}.
Proof.
  intros W Hb Hl.
  change ((LBRACE :: body ++ [RBRACE]) ++ rest)
    with (LBRACE :: (body ++ [RBRACE]) ++ rest).
  rewrite (skills_block_start _ _ W).
  rewrite <- app_assoc. apply rep_lazy_cut.
  - apply forallb_forall. intros c Hc. simpl.
    destruct (N.eqb_spec c LF) as [->|]; [contradiction|reflexivity].
  - intros p q -> Hq. destruct q as [|c q]; [contradiction|].
    apply skills_close_other. intros ->. apply Hb.
    apply in_or_app. right. left. reflexivity.
  - unfold skills_close.
    change (strip_prefix [RBRACE] ([RBRACE] ++ rest)) with (Some rest).
    change (LBRACE :: body ++ [RBRACE] ++ rest)
      with ((LBRACE :: body) ++ [RBRACE] ++ rest).
    rewrite app_assoc, firstn_consumed. reflexivity.
Qed.

Lemma skills_match_line_break (ws b1 rest : text) :
  forallb is_space ws = true -> ~ In RBRACE b1 ->
  match_here false skills_re (SKILLS_LABEL ++ ws ++ LBRACE :: b1 ++ LF :: rest) = None.
Proof.
  intros W Hb. rewrite (skills_block_start _ _ W).
  apply rep_lazy_line. intros p q ->.
  destruct q as [|c q].
  - reflexivity.
  - apply skills_close_other. intros ->. apply Hb.
    apply in_or_app. right. left. reflexivity.
Qed.

Lemma skills_no_label (q : text) :
  (forall r, q <> SKILLS_LABEL ++ r) -> match_here false skills_re q = None.
Proof.
  intros H. rewrite match_here_skills.
  destruct (strip_prefix SKILLS_LABEL q) as [r|] eqn:E; [|reflexivity].
  apply strip_prefix_some in E. exfalso. exact (H r E).
Qed.

(** C10: the skills pattern is searched without [re.DOTALL], so a block whose
    brace payload has a line feed before its first closing brace is not
    matched, whatever the payload spells; when the label occurs nowhere else
    the program has no skills map and reports no error, only the notice that
    nothing was found. *)
Theorem skills_block_line_break (pre ws b1 rest : text) :
  forallb is_space ws = true ->
  ~ In RBRACE b1 ->
  match_here false skills_re (SKILLS_LABEL ++ ws ++ LBRACE :: b1 ++ LF :: rest) = None /\
  ((forall p, occurs_at SKILLS_LABEL
                (pre ++ SKILLS_LABEL ++ ws ++ LBRACE :: b1 ++ LF :: rest) p ->
              length p = length pre) ->
   extractSkillScoreMap (pre ++ SKILLS_LABEL ++ ws ++ LBRACE :: b1 ++ LF :: rest) = None /\
   skills_section (pre ++ SKILLS_LABEL ++ ws ++ LBRACE :: b1 ++ LF :: rest)
   = ([StInfo (u "No specific skills match found to visualize.")], Returns tt)).
Proof.
  intros W Hb. pose proof (skills_match_line_break ws b1 rest W Hb) as Hblock.
  split; [exact Hblock|]. intros Honly.
  assert (S : re_search false skills_re
                (pre ++ SKILLS_LABEL ++ ws ++ LBRACE :: b1 ++ LF :: rest) = None).
  { apply re_search_none. intros p q E.
    destruct (strip_prefix SKILLS_LABEL q) as [r|] eqn:Eq.
    - apply strip_prefix_some in Eq. subst q.
      assert (L : length p = length pre) by (apply Honly; exists r; exact E).
      symmetry in E. apply app_eq_app in E.
      destruct E as [l [[E1 E2]|[E1 E2]]].
      + assert (l = []) as ->
          by (apply length_zero_iff_nil; rewrite E1, length_app in L; lia).
        rewrite app_nil_l in E2. rewrite <- E2. exact Hblock.
      + assert (l = []) as ->
          by (apply length_zero_iff_nil; rewrite E1, length_app in L; lia).
        rewrite app_nil_l in E2. rewrite E2. exact Hblock.
    - apply skills_no_label. intros r ->. rewrite strip_prefix_app in Eq.
      discriminate Eq. }
  unfold skills_section, extractSkillScoreMap. rewrite S. split; reflexivity.
Qed.

(** ** A flat literal under the evaluator *)












Lemma skills_search_first (pre ws body rest : text) :
  (forall p, occurs_at SKILLS_LABEL
               (pre ++ SKILLS_LABEL ++ ws ++ (LBRACE :: body ++ [RBRACE]) ++ rest) p ->
             length pre <= length p) ->
  forallb is_space ws = true -> ~ In RBRACE body -> ~ In LF body ->
  re_search false skills_re
    (pre ++ SKILLS_LABEL ++ ws ++ (LBRACE :: body ++ [RBRACE]) ++ rest)
  = Some {| group1 := Some (LBRACE :: body ++ [RBRACE]) |}.
Proof.
  intros Hfirst W Hb Hl. apply re_search_first.
  - apply skills_match_payload; assumption.
  - intros p' q' E L. apply skills_no_label. intros r Eq. subst q'.
    assert (O : occurs_at SKILLS_LABEL
                  (pre ++ SKILLS_LABEL ++ ws ++ (LBRACE :: body ++ [RBRACE]) ++ rest) p')
      by (exists r; exact E).
    apply Hfirst in O. lia.
Qed.


(** ** The two document generators and the page *)

Lemma modelled_call (A : Type) (r : exn + A) : modelled (call r).
Proof. destruct r; discriminate. Qed.

Lemma modelled_encode (s : text) : modelled (encode_latin1 s).
Proof.
  induction s as [|c s IH]; simpl; [discriminate|].
  destruct (Byte.of_N c); [|discriminate].
  destruct (encode_latin1 s); [discriminate|discriminate|exact IH].
Qed.

Lemma modelled_fold (A B : Type) (f : B -> A -> exn + A) (l : list B) (init : outcome A) :
  modelled init ->
  modelled (fold_left (fun acc x => d <- acc ;; call (f x d)) l init).
Proof.
  revert init. induction l as [|x l IH]; intros init H; simpl; [exact H|].
  apply IH. destruct init as [a| |]; simpl;
    [apply modelled_call|discriminate|contradiction].
Qed.

Lemma yields_bind (A : Type) (x : outcome A)
    (f : A -> outcome (option (list byte))) :
  modelled x -> (forall a, yields_document (f a)) -> yields_document (bind x f).
Proof.
  intros Hx Hf. destruct x as [a|e|]; simpl; [apply Hf|exact I|contradiction].
Qed.

Lemma score_section_found (v : Z) :
  (0 <= v <= 100)%Z ->
  score_section (Some v)
  = ([StMarkdown
        (u "<p style='font-size: 1.8em; font-weight: bold; color:#2E7D32;'>Match Score: "
           ++ render_int v ++ u "%</p>");
      StProgress v;
      StPyplotBar (create_bar_chart v (u "Resume Match"))],
     Returns tt).
Proof.
  intros [L U]. unfold score_section.
  apply Z.leb_le in L. apply Z.leb_le in U. rewrite L, U. reflexivity.
Qed.

Section Rendering.

Variable pdf : Type.
Variable FPDF : exn + pdf.
Variable add_page : pdf -> exn + pdf.
Variable set_font : text -> Z -> pdf -> exn + pdf.
Variable multi_cell : Z -> Z -> text -> pdf -> exn + pdf.
Variable output_S : pdf -> exn + text.

Local Abbreviation report_pdf :=
  (generate_pdf_report FPDF add_page set_font multi_cell output_S).
Local Abbreviation cover_pdf :=
  (generate_cover_letter_pdf FPDF add_page set_font multi_cell output_S).
Local Abbreviation document_bytes :=
  (document_bytes FPDF add_page set_font multi_cell output_S).
Local Abbreviation page :=
  (show_analysis FPDF add_page set_font multi_cell output_S).

Lemma document_bytes_yields (content : text) : yields_document (document_bytes content).
Proof.
  unfold document_bytes.
  apply yields_bind; [apply modelled_call|intros d0].
  apply yields_bind; [apply modelled_call|intros d1].
  apply yields_bind; [apply modelled_call|intros d2].
  apply yields_bind; [apply modelled_fold; discriminate|intros d3].
  apply yields_bind; [apply modelled_call|intros buffer].
  apply yields_bind; [apply modelled_encode|intros out]. exact I.
Qed.

Lemma generate_pdf_report_cases (content : text) :
  (exists out, document_bytes content = Returns (Some out) /\
               report_pdf content = ([], Returns (Some out))) \/
  (exists e, document_bytes content = Raises e /\
             report_pdf content
             = ([StErrorExn (u "Error generating PDF report: ") e], Returns None)).
Proof.
  pose proof (document_bytes_yields content) as Y.
  unfold generate_pdf_report. fold (document_bytes content).
  destruct (document_bytes content) as [[out|]|e|]; try contradiction.
  - left. exists out. split; reflexivity.
  - right. exists e. split; reflexivity.
Qed.

Lemma generate_cover_letter_pdf_cases (content : text) :
  (exists out, document_bytes content = Returns (Some out) /\
               cover_pdf content = ([], Returns (Some out))) \/
  (exists e, document_bytes content = Raises e /\
             cover_pdf content
             = ([StErrorExn (u "Error generating cover letter PDF: ") e], Returns None)).
Proof.
  pose proof (document_bytes_yields content) as Y.
  unfold generate_cover_letter_pdf. fold (document_bytes content).
  destruct (document_bytes content) as [[out|]|e|]; try contradiction.
  - left. exists out. split; reflexivity.
  - right. exists e. split; reflexivity.
Qed.

(** Every event of a short explicit list is checked in turn. *)
Ltac each_event :=
  let e := fresh "e" in
  let H := fresh "H" in
  intros e H; simpl in H;
  repeat (destruct H as [<-|H]; [reflexivity|]);
  destruct H.

(** Membership in a list written with [::] and [++]. *)
Ltac find_event :=
  solve [repeat (first [apply in_eq | apply in_cons | apply in_or_app; right])].

Lemma skills_section_events (analysis : text) :
  (forall e, In e (fst (skills_section analysis)) -> is_score_output e = false) /\
  (forall e, snd (skills_section analysis) <> Raises e).
Proof.
  unfold skills_section.
  destruct (extractSkillScoreMap analysis) as [[v|e0|]|]; simpl.
  - destruct (create_radar_chart v (u "Skills Overview")) as [[fig|]|e1|]; simpl;
      (split; [each_event|discriminate]).
  - split; [each_event|discriminate].
  - split; [each_event|discriminate].
  - split; [each_event|discriminate].
Qed.

Lemma cover_section_events (analysis : text) :
  (forall e, In e (fst (cover_section FPDF add_page set_font multi_cell output_S analysis)) ->
             is_score_output e = false) /\
  snd (cover_section FPDF add_page set_font multi_cell output_S analysis) = Returns tt.
Proof.
  unfold cover_section.
  destruct (extractCoverLetter analysis) as [cl|]; [|split; [each_event|reflexivity]].
  destruct (generate_cover_letter_pdf_cases cl) as [(out & _ & C)|(e & _ & C)];
    rewrite C; simpl.
  - destruct out; simpl; (split; [each_event|reflexivity]).
  - split; [each_event|reflexivity].
Qed.

Lemma report_section_events (bytes : option (list byte)) :
  (forall e, In e (fst (report_section bytes)) -> is_score_output e = false) /\
  snd (report_section bytes) = Returns tt.
Proof.
  destruct bytes as [[|b data]|]; simpl;
    (split; [each_event|reflexivity]).
Qed.


(** The page of any analysis text that was obtained. *)
Lemma page_events (analysis : text) (ms : option Z) :
  truthy analysis = true ->
  extract_match_percentage analysis = Returns ms ->
  snd (score_section ms) = Returns tt ->
  page (Some analysis)
  = (fst (report_pdf analysis)
     ++ [StMarkdown (u "<hr>");
         StMarkdown (u "<h2 style='color: #3366cc;'>Analysis Report</h2>")]
     ++ fst (score_section ms)
     ++ fst (skills_section analysis)
     ++ match snd (skills_section analysis) with
        | Returns _ =>
            [StMarkdown (u "<h3 style='color: #3366cc;'>Key Insights</h3>");
             StMarkdown analysis]
            ++ fst (cover_section FPDF add_page set_font multi_cell output_S analysis)
            ++ match snd (report_pdf analysis) with
               | Returns bytes => fst (report_section bytes)
               | _ => []
               end
        | _ => []
        end,
     snd (skills_section analysis)).
Proof.
  intros Ht Hs Hsc. unfold show_analysis. rewrite Ht. unfold analysis_page.
  rewrite Hs.
  destruct (cover_section_events analysis) as [_ Cs].
  destruct (generate_pdf_report_cases analysis) as [(out & _ & R)|(e & _ & R)];
    rewrite R; simpl;
    destruct (score_section ms) as [evm stm]; simpl in Hsc; subst stm; simpl;
    destruct (skills_section analysis) as [evs [[]|e1|]]; simpl;
    rewrite ?app_nil_r; try reflexivity;
    destruct (cover_section FPDF add_page set_font multi_cell output_S analysis)
      as [evc stc]; simpl in Cs; subst stc; simpl;
    rewrite <- ?app_assoc; try reflexivity.
  all: try (destruct out; simpl; rewrite <- ?app_assoc; reflexivity).
Qed.


End Rendering.

(** ** The two document generators and the clock *)

Lemma split_lines_one (l : text) : ~ In LF l -> split_lines l = [l].
Proof.
  induction l as [|c l IH]; intros H; [reflexivity|].
  cbn [split_lines]. destruct (N.eqb_spec c LF) as [->|_].
  - exfalso. apply H. left. reflexivity.
  - rewrite IH; [reflexivity|]. intros I. apply H. right. exact I.
Qed.

Lemma split_lines_cut (l x : text) :
  ~ In LF l -> split_lines (l ++ LF :: x) = l :: split_lines x.
Proof.
  induction l as [|c l IH]; intros H.
  - cbn [app split_lines]. rewrite N.eqb_refl. reflexivity.
  - cbn [app split_lines]. destruct (N.eqb_spec c LF) as [->|_].
    + exfalso. apply H. left. reflexivity.
    + rewrite IH; [reflexivity|]. intros I. apply H. right. exact I.
Qed.

(** [split] undoes [join] on lines that hold no line feed. *)
Lemma split_lines_of_join (lines : list text) :
  lines <> [] -> (forall l, In l lines -> ~ In LF l) ->
  split_lines (join_lines lines) = lines.
Proof.
  induction lines as [|l ls IH]; intros N H; [contradiction|].
  destruct ls as [|l2 ls].
  - cbn [join_lines]. apply split_lines_one. apply H. left. reflexivity.
  - change (join_lines (l :: l2 :: ls)) with (l ++ LF :: join_lines (l2 :: ls)).
    rewrite split_lines_cut by (apply H; left; reflexivity).
    rewrite IH; [reflexivity|discriminate|].
    intros l' I. apply H. right. exact I.
Qed.

Section Clock.

(** [FPDF.output] writes the creation date of the document, which it reads
    from the clock: [output_at now] is the call when the clock reads [now]. *)
Variable pdf : Type.
Variable FPDF : exn + pdf.
Variable add_page : pdf -> exn + pdf.
Variable set_font : text -> Z -> pdf -> exn + pdf.
Variable multi_cell : Z -> Z -> text -> pdf -> exn + pdf.
Variable output_at : N -> pdf -> exn + text.

Local Abbreviation report_at now :=
  (generate_pdf_report FPDF add_page set_font multi_cell (output_at now)).
Local Abbreviation cover_at now :=
  (generate_cover_letter_pdf FPDF add_page set_font multi_cell (output_at now)).
Local Abbreviation rendered now :=
  (render_lines FPDF add_page set_font multi_cell (output_at now)).

Lemma cells_fold (lines : list text) :
  forall init : outcome pdf,
    fold_left (fun acc line => d <- acc ;; call (multi_cell 0 10 line d)) lines init
    = (d <- init ;; cells multi_cell lines d).
Proof.
  induction lines as [|l ls IH]; intros init.
  - destruct init; reflexivity.
  - cbn [fold_left]. rewrite IH. destruct init as [d|e|]; [|reflexivity|reflexivity].
    cbn [bind cells]. destruct (multi_cell 0 10 l d); reflexivity.
Qed.

Lemma document_bytes_lines (now : N) (lines : list text) :
  lines <> [] -> (forall l, In l lines -> ~ In LF l) ->
  document_bytes FPDF add_page set_font multi_cell (output_at now) (join_lines lines)
  = (out <- rendered now lines ;; Returns (Some out)).
Proof.
  intros N H. unfold document_bytes, render_lines.
  rewrite (split_lines_of_join lines N H).
  destruct FPDF as [e|d0]; [reflexivity|]. cbn [call bind].
  destruct (add_page d0) as [e|d1]; [reflexivity|]. cbn [call bind].
  destruct (set_font (u "Arial") 12 d1) as [e|d2]; [reflexivity|]. cbn [call bind].
  rewrite cells_fold. cbn [bind].
  destruct (cells multi_cell lines d2) as [d3|e|]; [|reflexivity|reflexivity].
  cbn [bind]. destruct (output_at now d3) as [e|buffer]; [reflexivity|].
  cbn [call bind]. destruct (encode_latin1 buffer); reflexivity.
Qed.

Lemma rendered_modelled (now : N) (lines : list text) : modelled (rendered now lines).
Proof.
  unfold render_lines, modelled.
  destruct FPDF as [e|d0]; [discriminate|]. cbn [call bind].
  destruct (add_page d0) as [e|d1]; [discriminate|]. cbn [call bind].
  destruct (set_font (u "Arial") 12 d1) as [e|d2]; [discriminate|]. cbn [call bind].
  assert (C : forall ls d, cells multi_cell ls d <> Unmodelled).
  { induction ls as [|l ls IH]; intros d; [discriminate|].
    cbn [cells]. destruct (multi_cell 0 10 l d) as [e|d']; [discriminate|].
    cbn [call bind]. apply IH. }
  specialize (C lines d2).
  destruct (cells multi_cell lines d2) as [d3|e|]; [|discriminate|contradiction].
  cbn [bind]. destruct (output_at now d3) as [e|buffer]; [discriminate|].
  cbn [call bind]. apply modelled_encode.
Qed.

(** C9, amended: the two generators take the same steps, each on a document
    of its own and on the lines of its text: what each returns is what
    these steps give for the lines, bytes when they succeed and [None] with
    its own error message when a step raises.  On one text the two return
    the same whenever [FPDF.output] writes alike at the two calls; the bytes
    are made from the text and the clock, not from the text alone. *)
Theorem generators_agree (content : text) (lines : list text) (t1 t2 : N) :
  join_lines lines = content ->
  lines <> [] ->
  (forall l, In l lines -> ~ In LF l) ->
  report_at t1 content
  = match rendered t1 lines with
    | Returns out => ([], Returns (Some out))
    | Raises e => ([StErrorExn (u "Error generating PDF report: ") e], Returns None)
    | Unmodelled => ([], Unmodelled)
    end /\
  cover_at t2 content
  = match rendered t2 lines with
    | Returns out => ([], Returns (Some out))
    | Raises e =>
        ([StErrorExn (u "Error generating cover letter PDF: ") e], Returns None)
    | Unmodelled => ([], Unmodelled)
    end /\
  rendered t1 lines <> Unmodelled /\
  rendered t2 lines <> Unmodelled /\
  ((forall doc, output_at t1 doc = output_at t2 doc) ->
   snd (report_at t1 content) = snd (cover_at t2 content)).
Proof.
  intros <- N H.
  assert (R : report_at t1 (join_lines lines)
              = match rendered t1 lines with
                | Returns out => ([], Returns (Some out))
                | Raises e =>
                    ([StErrorExn (u "Error generating PDF report: ") e], Returns None)
                | Unmodelled => ([], Unmodelled)
                end).
  { unfold generate_pdf_report.
    fold (document_bytes FPDF add_page set_font multi_cell (output_at t1)
            (join_lines lines)).
    rewrite (document_bytes_lines t1 lines N H).
    destruct (rendered t1 lines); reflexivity. }
  assert (C : cover_at t2 (join_lines lines)
              = match rendered t2 lines with
                | Returns out => ([], Returns (Some out))
                | Raises e =>
                    ([StErrorExn (u "Error generating cover letter PDF: ") e],
                     Returns None)
                | Unmodelled => ([], Unmodelled)
                end).
  { unfold generate_cover_letter_pdf.
    fold (document_bytes FPDF add_page set_font multi_cell (output_at t2)
            (join_lines lines)).
    rewrite (document_bytes_lines t2 lines N H).
    destruct (rendered t2 lines); reflexivity. }
  split; [exact R|]. split; [exact C|].
  split; [apply rendered_modelled|]. split; [apply rendered_modelled|].
  intros Same. rewrite R, C.
  assert (E : rendered t1 lines = rendered t2 lines).
  { unfold render_lines.
    destruct FPDF as [e|d0]; [reflexivity|]. cbn [call bind].
    destruct (add_page d0) as [e|d1]; [reflexivity|]. cbn [call bind].
    destruct (set_font (u "Arial") 12 d1) as [e|d2]; [reflexivity|]. cbn [call bind].
    destruct (cells multi_cell lines d2) as [d3|e|]; [|reflexivity|reflexivity].
    cbn [bind]. rewrite (Same d3). reflexivity. }
  rewrite E. destruct (rendered t2 lines); reflexivity.
Qed.

End Clock.

(** ** The radar chart *)

Lemma radar_ticks (A : Type) (f : nat -> A) (n : nat) :
  n <> 0 ->
  removelast (map f (seq 0 n) ++ firstn 1 (map f (seq 0 n))) = map f (seq 0 n).
Proof.
  intros H. destruct n as [|n]; [contradiction|].
  change (map f (seq 0 (S n))) with (f 0 :: map f (seq 1 n)).
  change (firstn 1 (f 0 :: map f (seq 1 n))) with [f 0].
  apply removelast_last.
Qed.

(** C8: [create_radar_chart] on an empty mapping returns [None]; a chart it
    returns has one axis per entry of a mapping that is not empty, so never
    zero axes; and for a non-empty mapping of names to plain numbers it does
    return a chart. *)
Theorem create_radar_chart_axes :
  (forall title, create_radar_chart (VDict []) title = Returns None) /\
  (forall skills title fig,
     create_radar_chart skills title = Returns (Some fig) ->
     exists d, skills = VDict d /\ d <> [] /\
               length (radar_xticks fig) = length d /\
               radar_xticklabels fig = map fst d /\
               0 < length (radar_xticks fig)) /\
  (forall d title,
     d <> [] ->
     forallb is_plain_number (map snd d) = true ->
     forallb is_str (map fst d) = true ->
     exists fig, create_radar_chart (VDict d) title = Returns (Some fig)).
Proof.
  split; [reflexivity|split].
  - intros skills title fig H. unfold create_radar_chart in H.
    destruct skills as [d|els].
    + destruct (Nat.eqb_spec (length d) 0) as [E|E]; [discriminate H|].
      destruct (forallb is_plain_number _ && forallb is_str _); [|discriminate H].
      injection H as <-. cbn [radar_xticks radar_xticklabels].
      exists d.
      pose proof (radar_ticks _ (fun n : nat => (n, length d)) _ E) as T.
      cbn [firstn] in T. rewrite T, length_map, length_seq.
      repeat split; try lia.
      intros ->. apply E. reflexivity.
    + destruct (Nat.eqb (length els) 0); discriminate H.
  - intros d title Hd Hn Hs. unfold create_radar_chart.
    destruct (Nat.eqb_spec (length d) 0) as [E|E].
    { destruct d; [contradiction|discriminate E]. }
    assert (V : forallb is_plain_number (map snd d ++ firstn 1 (map snd d)) = true).
    { rewrite forallb_app, Hn. simpl. destruct (map snd d) as [|x l]; [reflexivity|].
      simpl in Hn |- *. apply andb_prop in Hn. rewrite (proj1 Hn). reflexivity. }
    rewrite V, Hs. eexists. reflexivity.
Qed.

(** ** The evaluator is not a literal parser *)

(** C2, at the payload [{'a': 1+1}]: the restricted parser of the
    specification rejects it, the program evaluates the sum and takes the
    result for the skills mapping. *)
Theorem skills_payload_is_evaluated :
  safe_literal_parse (u "{'a': 1+1}") = None /\
  extractSkillScoreMap (u "Skills Match: {'a': 1+1}")
  = Some (Returns (VDict [(VStr (u "a"), VInt 2)])).
Proof. split; vm_compute; reflexivity. Qed.

(** ** Checks on concrete texts *)

Lemma not_in_check (x : char) (t : text) :
  forallb (fun c => negb (c =? x)%N) t = true -> ~ In x t.
Proof.
  intros H I. rewrite forallb_forall in H. specialize (H x I).
  rewrite N.eqb_refl in H. discriminate H.
Qed.

Lemma token_after_nondigits (n : nat) (t : text) :
  forallb (fun c => negb (is_digit c)) (firstn n t) = true ->
  forall pre ds, token_at t pre ds -> n <= length pre.
Proof.
  intros H pre ds [[[L _] D] [rest E]].
  destruct (Nat.le_gt_cases n (length pre)) as [G|G]; [exact G|exfalso].
  destruct ds as [|c ds]; [simpl in L; lia|].
  cbn [forallb] in D. apply andb_prop in D. destruct D as [Dc _].
  rewrite forallb_forall in H. specialize (H c).
  rewrite Dc in H. discriminate H.
  rewrite E, firstn_app. apply in_or_app. right.
  destruct (n - length pre) as [|k] eqn:K; [lia|]. left. reflexivity.
Qed.

Lemma occurs_in_occurrences (pat t p : text) (i : nat) :
  occurs_at pat t p -> In (i + length p) (occurrences pat t i).
Proof.
  intros [q ->]. revert i. induction p as [|a p IH]; intros i.
  - simpl app. rewrite Nat.add_0_r.
    destruct (pat ++ q) as [|c r] eqn:E; simpl;
      rewrite <- ?E, strip_prefix_app; left; reflexivity.
  - simpl. apply in_or_app. right.
    rewrite <- Nat.add_succ_comm. apply IH.
Qed.

Lemma occurs_only_at (pat t : text) (k : nat) :
  forallb (Nat.eqb k) (occurrences pat t 0) = true ->
  forall p, occurs_at pat t p -> length p = k.
Proof.
  intros H p O. rewrite forallb_forall in H.
  pose proof (occurs_in_occurrences pat t p 0 O) as I.
  apply H in I. apply Nat.eqb_eq in I. simpl in I. symmetry. exact I.
Qed.

(** * Further properties of the script *)

(** ** The match percentage *)

Lemma digits_value_nonneg (ds : text) :
  forall acc v, digits_value acc ds = Some v -> (0 <= acc)%Z -> (0 <= v)%Z.
Proof.
  induction ds as [|c ds IH]; intros acc v H A; cbn [digits_value] in H.
  - injection H as <-. exact A.
  - destruct (digit_value c) as [d|] eqn:D; [|discriminate H].
    apply (IH _ _ H). pose proof (digit_value_range D). lia.
Qed.

(** X1: on every text [extract_match_percentage] returns, and what it
    returns is [None] or an integer from 0 to 100; it never raises. *)
Theorem extract_match_percentage_range (t : text) :
  extract_match_percentage t = Returns None \/
  exists v, extract_match_percentage t = Returns (Some v) /\ (0 <= v <= 100)%Z.
Proof.
  unfold extract_match_percentage.
  destruct (truthy t); [|left; reflexivity].
  destruct (re_search false score_re t) as [m|] eqn:S; [|left; reflexivity].
  right. apply re_search_some in S. destruct S as (p & q & _ & Hm & _).
  apply score_match_inv in Hm. destruct Hm as (ds & rest & _ & T & G).
  destruct (py_int_token ds T) as (v & Ev & Ei).
  exists (Z.min v 100). rewrite G.
  replace (py_int (Some ds)) with (@Returns Z v) by (symmetry; exact Ei).
  split; [reflexivity|].
  pose proof (digits_value_nonneg ds 0 v Ev ltac:(lia)). lia.
Qed.

(** A percentage right after a prefix that holds no occurrence of the
    pattern and does not end in a digit is the one that is read. *)
Lemma extract_after_clean_prefix (pre ds suf : text) :
  score_token ds ->
  (forall p ds', ~ token_at pre p ds') ->
  (forall p c, pre = p ++ [c] -> is_digit c = false) ->
  exists v, digits_value 0 ds = Some v /\
    extract_match_percentage (pre ++ ds ++ PERCENT :: suf)
    = Returns (Some (Z.min v 100)).
Proof.
  intros T Hno Hlast.
  destruct (py_int_token ds T) as (v & Ev & Ei).
  exists v. split; [exact Ev|].
  unfold extract_match_percentage.
  assert (Ht : truthy (pre ++ ds ++ PERCENT :: suf) = true).
  { destruct pre; [|reflexivity]. destruct ds; reflexivity. }
  rewrite Ht.
  rewrite (re_search_first false score_re pre (ds ++ PERCENT :: suf)
             {| group1 := Some ds |}).
  - cbv beta iota. simpl group1.
    replace (py_int (Some ds)) with (@Returns Z v) by (symmetry; exact Ei).
    reflexivity.
  - apply score_match_token. exact T.
  - intros p' q' E L.
    destruct (match_here false score_re q') as [m|] eqn:M; [|reflexivity].
    exfalso.
    apply score_match_inv in M. destruct M as (ds2 & rest & -> & Tds & _).
    apply app_eq_app in E. destruct E as [l [[E1 E2]|[E1 E2]]].
    2:{ subst p'. rewrite length_app in L. lia. }
    assert (Hl : l <> []).
    { intros ->. rewrite app_nil_r in E1. subst p'. lia. }
    destruct (exists_last Hl) as (l0 & c & El).
    assert (Hc : is_digit c = false).
    { apply (Hlast (p' ++ l0) c). rewrite E1, El. apply app_assoc. }
    symmetry in E2. apply app_eq_app in E2.
    destruct E2 as [l2 [[E3 E4]|[E3 E4]]].
    + destruct l2 as [|c2 l2].
      * rewrite app_nil_r in E3.
        rewrite (token_digits_last ds2 l0 [] c (proj2 Tds)) in Hc; [discriminate|].
        rewrite app_nil_r, <- El. symmetry. exact E3.
      * simpl in E4. injection E4 as <- _.
        apply (Hno p' ds2). split; [exact Tds|].
        exists l2. rewrite E1, E3. reflexivity.
    + rewrite (token_digits_last ds2 l0 l2 c (proj2 Tds)) in Hc; [discriminate|].
      rewrite <- El. exact E3.
Qed.

Lemma render_ok_999 (n : N) : (n <= 999)%N -> render_ok n = true.
Proof.
  intros H.
  assert (A : forallb render_ok (map N.of_nat (seq 0 1000)) = true)
    by (vm_compute; reflexivity).
  rewrite forallb_forall in A. apply A.
  rewrite <- (N2Nat.id n). apply in_map. apply in_seq. lia.
Qed.

(** X2: for [n] up to 999, after a prefix that holds no occurrence of the
    pattern and does not end in a digit, the text [prefix + str(n) + "%" +
    suffix] gives [min(n, 100)]: values above 100 come back as 100. *)
Theorem extract_match_percentage_clamped (n : N) (pre suf : text) :
  (n <= 999)%N ->
  (forall p ds, ~ token_at pre p ds) ->
  (forall p c, pre = p ++ [c] -> is_digit c = false) ->
  extract_match_percentage (pre ++ render_nat n ++ PERCENT :: suf)
  = Returns (Some (Z.min (Z.of_N n) 100)).
Proof.
  intros Hn Hno Hlast.
  pose proof (render_ok_999 n Hn) as R. unfold render_ok in R. cbv zeta in R.
  apply andb_prop in R. destruct R as [R V].
  apply andb_prop in R. destruct R as [R D].
  apply andb_prop in R. destruct R as [L1 L3].
  apply Nat.leb_le in L1. apply Nat.leb_le in L3. apply Z.eqb_eq in V.
  assert (T : score_token (render_nat n))
    by (split; [lia|apply is_digit_ascii; exact D]).
  destruct (extract_after_clean_prefix pre (render_nat n) suf T Hno Hlast)
    as (v & Ev & E).
  rewrite (digits_value_ascii _ D) in Ev. unfold decimal_value in V.
  rewrite V in Ev. injection Ev as <-. exact E.
Qed.

(** X3: of a run of four or more digits before the percent sign only the
    last three are read: after a prefix with no occurrence of the pattern,
    a digit, three more digits and ["%"] give the number those three digits
    write, at most 100. *)
Theorem extract_match_percentage_long_run (pre : text) (d0 : char) (ds suf : text)
    (dl : list Z) :
  (forall p ds', ~ token_at pre p ds') ->
  is_digit d0 = true ->
  length ds = 3 -> digits_of ds dl ->
  extract_match_percentage (pre ++ d0 :: ds ++ PERCENT :: suf)
  = Returns (Some (Z.min (decimal dl) 100)).
Proof.
  intros Hno D0 L3 F.
  pose proof (digits_of_is_digit ds dl F) as D.
  assert (T : score_token ds) by (split; [lia|exact D]).
  assert (Pd : is_digit PERCENT = false)
    by (unfold is_digit; rewrite percent_not_digit; reflexivity).
  destruct (py_int_token ds T) as (v & Ev & Ei).
  rewrite (digits_value_decimal ds dl F 0) in Ev. injection Ev as Ev.
  change (0 * 10 ^ Z.of_nat (length dl) + decimal dl)%Z with (decimal dl) in Ev.
  subst v.
  unfold extract_match_percentage.
  assert (Ht : truthy (pre ++ d0 :: ds ++ PERCENT :: suf) = true)
    by (destruct pre; reflexivity).
  rewrite Ht.
  change (pre ++ d0 :: ds ++ PERCENT :: suf)
    with (pre ++ [d0] ++ ds ++ PERCENT :: suf).
  rewrite app_assoc.
  rewrite (re_search_first false score_re (pre ++ [d0]) (ds ++ PERCENT :: suf)
             {| group1 := Some ds |}).
  - cbv beta iota. simpl group1.
    replace (py_int (Some ds)) with (@Returns Z (decimal dl))
      by (symmetry; exact Ei).
    reflexivity.
  - apply score_match_token. exact T.
  - intros p' q' E L.
    destruct (match_here false score_re q') as [m|] eqn:M; [|reflexivity].
    exfalso.
    apply score_match_inv in M. destruct M as (ds2 & rest & -> & [[L1 L2] D2] & _).
    apply app_eq_app in E. destruct E as [l [[E1 E2]|[E1 E2]]].
    2:{ subst p'. rewrite length_app in L. lia. }
    assert (Hl : l <> []).
    { intros ->. rewrite app_nil_r in E1. rewrite <- E1 in L. lia. }
    destruct (exists_last Hl) as (l0 & c & El).
    assert (c = d0 /\ pre = p' ++ l0) as [-> Epre].
    { rewrite El, app_assoc in E1. apply app_inj_tail in E1.
      destruct E1 as [E1 <-]. split; [reflexivity|exact E1]. }
    symmetry in E2. apply app_eq_app in E2.
    destruct E2 as [l2 [[E3 E4]|[E3 E4]]].
    + (* the percent sign of the match lies at or before [d0] *)
      destruct l2 as [|c2 l2].
      * simpl in E4. destruct ds as [|x ds]; [discriminate L3|].
        simpl in E4. injection E4 as E4 _. subst x. cbn [forallb] in D.
        rewrite Pd in D. discriminate D.
      * simpl in E4. injection E4 as <- _.
        assert (Hl2 : l2 <> []).
        { intros ->. rewrite El in E3. apply app_inj_tail in E3.
          destruct E3 as [_ E3]. rewrite E3, Pd in D0. discriminate D0. }
        destruct (exists_last Hl2) as (l3 & c3 & El3).
        apply (Hno p' ds2). split; [split; [|exact D2]; lia|].
        exists l3. rewrite Epre.
        rewrite El, El3 in E3.
        change (ds2 ++ PERCENT :: l3 ++ [c3]) with (ds2 ++ (PERCENT :: l3) ++ [c3]) in E3.
        rewrite app_assoc in E3. apply app_inj_tail in E3.
        destruct E3 as [-> _]. reflexivity.
    + (* the match runs over [d0]: it would need more than three digits *)
      apply app_eq_app in E4. destruct E4 as [l4 [[E5 E6]|[E5 E6]]].
      * destruct l4 as [|c4 l4].
        -- rewrite app_nil_r in E5. subst ds.
           assert (length ds2 = length l + length l2) by (rewrite E3, length_app; reflexivity).
           rewrite El, length_app in H. simpl in H. lia.
        -- simpl in E6. injection E6 as <- _.
           rewrite E5, forallb_app in D. apply andb_prop in D.
           destruct D as [_ D]. cbn [forallb] in D. rewrite Pd in D. discriminate D.
      * assert (length ds2 = length l + length l2) by (rewrite E3, length_app; reflexivity).
        rewrite El, E5, !length_app in H. simpl in H. lia.
Qed.

(** ** The cover letter, on every text *)

Lemma rep_lazy_inv (A : Type) (d : bool) (s : text) (J : text -> option A) (x : A) :
  rep d ClsAny false 0 None s J = Some x ->
  exists content tail,
    s = content ++ tail /\ J tail = Some x /\
    (forall p q, content = p ++ q -> q <> [] -> J (q ++ tail) = None).
Proof.
  induction s as [|c s IH]; intros H.
  - cbn [rep] in H. exists [], []. split; [reflexivity|]. split.
    + destruct (J []); simpl in H; [exact H|discriminate H].
    + intros p q E Hq. destruct p; destruct q; try discriminate E. contradiction.
  - cbn [rep] in H. destruct (J (c :: s)) as [y|] eqn:Ey.
    + simpl in H. exists [], (c :: s). split; [reflexivity|]. split.
      * rewrite Ey. exact H.
      * intros p q E Hq. destruct p; destruct q; try discriminate E. contradiction.
    + cbn [orelse] in H. destruct (cls_match d ClsAny c); [|discriminate H].
      destruct (IH H) as (content & tail & -> & Ht & Hno).
      exists (c :: content), tail. split; [reflexivity|]. split; [exact Ht|].
      intros p q E Hq. destruct p as [|a p].
      * simpl in E. subst q. exact Ey.
      * simpl in E. injection E as _ E. exact (Hno p q E Hq).
Qed.

Lemma cover_stop_some (g : option text) (s : text) (m : re_match) :
  cover_stop g s = Some m -> m = {| group1 := g |}.
Proof.
  unfold cover_stop. cbn [rmatch].
  destruct (strip_prefix ATS_MARKER s); [simpl; intros H; injection H as <-; reflexivity|].
  destruct (strip_prefix INTERVIEW_MARKER s);
    [simpl; intros H; injection H as <-; reflexivity|].
  simpl. destruct s as [|c [|c' s]]; try discriminate.
  - intros H. injection H as <-. reflexivity.
  - destruct (c =? LF)%N; [|discriminate]. intros H. injection H as <-. reflexivity.
Qed.

(** What a match of the cover-letter pattern looks like. *)
Lemma cover_match_inv (s : text) (m : re_match) :
  match_here true cover_re s = Some m ->
  exists s1 content tail,
    s = COVER_LABEL ++ s1 /\ lstrip s1 = content ++ tail /\
    group1 m = Some content /\
    (forall p q mk r, content = p ++ q -> q <> [] -> is_marker mk ->
                      q ++ tail <> mk ++ r).
Proof.
  rewrite match_here_cover. intros H.
  destruct (strip_prefix COVER_LABEL s) as [s1|] eqn:E; [|discriminate H].
  apply strip_prefix_some in E.
  rewrite (rep_space_total _ _ _ _ cover_body_total) in H.
  unfold cover_body in H. apply rep_lazy_inv in H.
  destruct H as (content & tail & Es & Ht & Hno).
  exists s1, content, tail. split; [exact E|]. split; [exact Es|]. split.
  - apply cover_stop_some in Ht. rewrite Ht. simpl group1.
    rewrite Es, firstn_consumed. reflexivity.
  - intros p q mk r Ec Hq Hm Eq. specialize (Hno p q Ec Hq).
    rewrite Eq, (cover_stop_marker _ mk r Hm) in Hno. discriminate Hno.
Qed.

(** What [extractCoverLetter] returns, on any text. *)
Lemma extractCoverLetter_inv (t c : text) :
  extractCoverLetter t = Some c ->
  exists pre s1 content tail,
    t = pre ++ COVER_LABEL ++ s1 /\ lstrip s1 = content ++ tail /\
    c = strip content /\
    (forall p q mk r, content = p ++ q -> q <> [] -> is_marker mk ->
                      q ++ tail <> mk ++ r) /\
    (forall p, occurs_at COVER_LABEL t p -> length pre <= length p).
Proof.
  unfold extractCoverLetter. intros H.
  destruct (re_search true cover_re t) as [m|] eqn:S; [|discriminate H].
  apply re_search_some in S. destruct S as (pre & q & -> & Hm & Hbefore).
  apply cover_match_inv in Hm.
  destruct Hm as (s1 & content & tail & -> & El & G & Hno).
  rewrite G in H. injection H as <-.
  exists pre, s1, content, tail. repeat split; try assumption.
  intros p [r E].
  destruct (Nat.le_gt_cases (length pre) (length p)) as [L|L]; [exact L|].
  exfalso. specialize (Hbefore p (COVER_LABEL ++ r) E L).
  rewrite match_here_cover, strip_prefix_app in Hbefore.
  rewrite (rep_space_total _ _ _ _ cover_body_total) in Hbefore.
  exact (cover_body_total _ Hbefore).
Qed.

(** X4: there is a cover letter exactly when the label [Cover Letter:]
    occurs in the text. *)
Theorem extractCoverLetter_none_iff (t : text) :
  extractCoverLetter t = None <-> (forall p, ~ occurs_at COVER_LABEL t p).
Proof.
  split.
  - intros H p [rest E]. unfold extractCoverLetter in H.
    destruct (re_search true cover_re t) as [m|] eqn:S.
    + apply re_search_some in S. destruct S as (p' & q & _ & Hm & _).
      apply cover_match_inv in Hm. destruct Hm as (_ & content & _ & _ & _ & G & _).
      rewrite G in H. discriminate H.
    + pose proof (re_search_none_inv _ _ _ S p (COVER_LABEL ++ rest) E) as N.
      rewrite match_here_cover, strip_prefix_app in N.
      rewrite (rep_space_total _ _ _ _ cover_body_total) in N.
      exact (cover_body_total _ N).
  - intros Hno. unfold extractCoverLetter.
    rewrite re_search_none; [reflexivity|].
    intros p q ->. apply cover_no_label. intros r Eq. subst q.
    apply (Hno p). exists r. reflexivity.
Qed.

(** X5: a cover letter the program extracts never starts and never ends
    with white space. *)
Theorem extractCoverLetter_stripped (t c : text) :
  extractCoverLetter t = Some c ->
  (forall a y, c = a :: y -> is_space a = false) /\
  (forall y z, c = y ++ [z] -> is_space z = false).
Proof.
  intros H. apply extractCoverLetter_inv in H.
  destruct H as (_ & _ & content & _ & _ & _ & -> & _).
  destruct (strip_clean content) as [Hh Hl]. split.
  - intros a y E. exact (Hh a y E).
  - intros y z E. exact (Hl y z E).
Qed.

(** X6: a cover letter the program extracts is a piece of the analysis
    text itself: it stands right after the first [Cover Letter:] label,
    with nothing but white space in between. *)
Theorem extractCoverLetter_substring (t c : text) :
  extractCoverLetter t = Some c ->
  exists pre ws post,
    t = pre ++ COVER_LABEL ++ ws ++ c ++ post /\
    forallb is_space ws = true /\
    (forall p, occurs_at COVER_LABEL t p -> length pre <= length p).
Proof.
  intros H. apply extractCoverLetter_inv in H.
  destruct H as (pre & s1 & content & tail & -> & El & -> & _ & Hfirst).
  destruct (lstrip_split s1) as (ws0 & E1 & W0).
  destruct (strip_split content) as (a & b & Ec & Wa & _).
  exists pre, (ws0 ++ a), (b ++ tail). split; [|split].
  - f_equal. f_equal. rewrite E1 at 1. rewrite El. rewrite Ec at 1.
    rewrite <- !app_assoc. reflexivity.
  - rewrite forallb_app, W0, Wa. reflexivity.
  - exact Hfirst.
Qed.

(** X7: a cover letter the program extracts contains neither
    [ATS Formatting Check:] nor [Interview Questions:]. *)
Theorem extractCoverLetter_no_marker (t c : text) :
  extractCoverLetter t = Some c ->
  forall mk p, is_marker mk -> ~ occurs_at mk c p.
Proof.
  intros H mk p Hm [r E]. apply extractCoverLetter_inv in H.
  destruct H as (_ & _ & content & tail & _ & _ & Ec & Hno & _).
  destruct (strip_split content) as (a & b & Es & _ & _).
  rewrite <- Ec, E in Es.
  destruct (marker_head mk Hm) as (c1 & c2 & m' & Em & _).
  apply (Hno (a ++ p) (mk ++ r ++ b) mk (r ++ b ++ tail)).
  - rewrite Es, <- !app_assoc. reflexivity.
  - rewrite Em. discriminate.
  - exact Hm.
  - rewrite <- !app_assoc. reflexivity.
Qed.

(** ** The lines and the bytes of a document *)

Lemma split_lines_nonempty (s : text) : split_lines s <> [].
Proof.
  destruct s as [|c s]; simpl; [discriminate|].
  destruct (c =? LF)%N; [discriminate|].
  destruct (split_lines s); discriminate.
Qed.

(** X8: the lines the document generators hand to [multi_cell] are the
    lines of the content: joined again with line feeds they give the
    content back, there is one more line than there are line feeds, and no
    line holds a line feed. *)
Theorem split_lines_join (s : text) :
  join_lines (split_lines s) = s /\
  length (split_lines s) = S (count_occ N.eq_dec s LF) /\
  (forall l, In l (split_lines s) -> ~ In LF l).
Proof.
  induction s as [|c s (IHj & IHn & IHl)].
  - repeat split. intros l [<-|[]] [].
  - cbn [split_lines]. destruct (N.eqb_spec c LF) as [->|Hc].
    + split; [|split].
      * cbn [join_lines]. destruct (split_lines s) as [|l ls] eqn:E.
        { exfalso. exact (split_lines_nonempty s E). }
        rewrite IHj. reflexivity.
      * cbn [length]. rewrite IHn. cbn [count_occ].
        destruct (N.eq_dec LF LF); [reflexivity|contradiction].
      * intros l [<-|I]; [intros []|exact (IHl l I)].
    + destruct (split_lines s) as [|l ls] eqn:E.
      { exfalso. exact (split_lines_nonempty s E). }
      split; [|split].
      * rewrite <- IHj. destruct ls; reflexivity.
      * cbn [length] in *. rewrite IHn. cbn [count_occ].
        destruct (N.eq_dec c LF); [contradiction|reflexivity].
      * intros l' [<-|I].
        -- intros [E'|I']; [exact (Hc E')|].
           apply (IHl l); [left; reflexivity|exact I'].
        -- apply IHl. right. exact I.
Qed.

Lemma encode_latin1_bytes (s : text) (out : list byte) :
  encode_latin1 s = Returns out -> map Byte.to_N out = s.
Proof.
  revert out. induction s as [|c s IH]; intros out H; simpl in H.
  - injection H as <-. reflexivity.
  - destruct (Byte.of_N c) as [b|] eqn:B; [|discriminate H].
    destruct (encode_latin1 s) as [r| |]; try discriminate H.
    simpl in H. injection H as <-. simpl.
    rewrite (Byte.to_of_N _ B), (IH r eq_refl). reflexivity.
Qed.

Lemma encode_latin1_raises (s : text) (e : exn) :
  encode_latin1 s = Raises e ->
  e = UnicodeEncodeError /\ exists c, In c s /\ (255 < c)%N.
Proof.
  induction s as [|c s IH]; intros H; simpl in H; [discriminate H|].
  destruct (Byte.of_N c) as [b|] eqn:B.
  - destruct (encode_latin1 s) as [r|e'|]; try discriminate H.
    simpl in H. injection H as ->.
    destruct (IH eq_refl) as (E & c' & I & L).
    split; [exact E|]. exists c'. split; [right; exact I|exact L].
  - injection H as <-. split; [reflexivity|].
    exists c. split; [left; reflexivity|]. apply Byte.of_N_None_iff. exact B.
Qed.

Lemma bind_returns (A B : Type) (x : outcome A) (f : A -> outcome B) (b : B) :
  bind x f = Returns b -> exists a, x = Returns a /\ f a = Returns b.
Proof. destruct x as [a| |]; simpl; intros H; [eauto|discriminate H|discriminate H]. Qed.

Lemma call_returns (A : Type) (r : exn + A) (a : A) :
  call r = Returns a -> r = inr a.
Proof. destruct r; simpl; intros H; [discriminate H|injection H as <-; reflexivity]. Qed.

(** ** The radar chart and the skills section *)

(** X9: in a chart [create_radar_chart] returns, the polygon is closed: for
    a mapping of [n] entries there are [n + 1] angles and [n + 1] values, the
    last value repeats the first, and the [n] axis ticks carry the [n] keys
    in the order of the mapping. *)
Theorem create_radar_chart_closed (d : list (scalar * scalar)) (title : text)
    (fig : radar_figure) :
  create_radar_chart (VDict d) title = Returns (Some fig) ->
  length (radar_angles fig) = S (length d) /\
  length (radar_values fig) = S (length d) /\
  (exists v0 mid, radar_values fig = v0 :: mid ++ [v0]) /\
  radar_xticks fig = removelast (radar_angles fig) /\
  length (radar_xticks fig) = length (radar_xticklabels fig) /\
  radar_xticklabels fig = map fst d /\
  radar_ylim fig = (0, 100)%Z.
Proof.
  intros H. unfold create_radar_chart in H.
  destruct (Nat.eqb_spec (length d) 0) as [E|E]; [discriminate H|].
  destruct (forallb is_plain_number _ && forallb is_str _); [|discriminate H].
  injection H as <-.
  cbn [radar_angles radar_values radar_xticks radar_xticklabels radar_ylim].
  pose proof (radar_ticks _ (fun n : nat => (n, length d)) _ E) as T.
  destruct d as [|[k v] d]; [contradiction|].
  repeat split.
  - rewrite length_app, length_map, length_seq. simpl. lia.
  - rewrite length_app, length_map. simpl. lia.
  - exists v, (map snd d). reflexivity.
  - first [rewrite T | cbn [firstn] in T; rewrite T | cbn in T |- *; rewrite T].
    rewrite !length_map, length_seq. reflexivity.
Qed.

(** X10: when the payload captured after the first [Skills Match:] label is
    the empty mapping [{}], the skills section shows nothing at all: no
    chart, no error, no notice. *)
Theorem skills_section_empty_mapping (pre ws rest : text) :
  (forall p, occurs_at SKILLS_LABEL
               (pre ++ SKILLS_LABEL ++ ws ++ [LBRACE; RBRACE] ++ rest) p ->
             length pre <= length p) ->
  forallb is_space ws = true ->
  skills_section (pre ++ SKILLS_LABEL ++ ws ++ [LBRACE; RBRACE] ++ rest)
  = ([], Returns tt).
Proof.
  intros Hfirst W.
  pose proof (skills_search_first pre ws [] rest Hfirst W
                (fun I => I) (fun I => I)) as S.
  unfold skills_section, extractSkillScoreMap.
  change ([LBRACE; RBRACE] ++ rest) with ((LBRACE :: [] ++ [RBRACE]) ++ rest).
  rewrite S. reflexivity.
Qed.

(** ** The script as a whole *)

Section Script.

Variable page : Type.
Variable pymupdf_open : list byte -> exn + list page.
Variable get_text : page -> exn + text.
Variable PROMPT : option text.
Variable model : Type.
Variable response : Type.
Variable GenerativeModel : text -> exn + model.
Variable generate_content : model -> text -> exn + response.
Variable response_text : response -> exn + text.
Variable pdf : Type.
Variable FPDF : exn + pdf.
Variable add_page : pdf -> exn + pdf.
Variable set_font : text -> Z -> pdf -> exn + pdf.
Variable multi_cell : Z -> Z -> text -> pdf -> exn + pdf.
Variable output_S : pdf -> exn + text.

Local Abbreviation report_pdf :=
  (generate_pdf_report FPDF add_page set_font multi_cell output_S).
Local Abbreviation cover_pdf :=
  (generate_cover_letter_pdf FPDF add_page set_font multi_cell output_S).
Local Abbreviation cover_part :=
  (cover_section FPDF add_page set_font multi_cell output_S).
Local Abbreviation page_of :=
  (show_analysis FPDF add_page set_font multi_cell output_S).
Local Abbreviation read_pdf := (extract_text_from_pdf page pymupdf_open get_text).
Local Abbreviation ask_model :=
  (analyze_resume PROMPT model response GenerativeModel generate_content response_text).
Local Abbreviation main :=
  (main_area page pymupdf_open get_text PROMPT model response GenerativeModel
     generate_content response_text pdf FPDF add_page set_font multi_cell output_S).

(** X11: each document generator either returns bytes and shows nothing, or
    returns [None] and shows exactly one error message; no exception leaves
    it. *)
Theorem generators_outcomes (content : text) :
  ((exists out, report_pdf content = ([], Returns (Some out))) \/
   (exists e, report_pdf content
              = ([StErrorExn (u "Error generating PDF report: ") e], Returns None))) /\
  ((exists out, cover_pdf content = ([], Returns (Some out))) \/
   (exists e, cover_pdf content
              = ([StErrorExn (u "Error generating cover letter PDF: ") e],
                 Returns None))).
Proof.
  split.
  - destruct (generate_pdf_report_cases pdf FPDF add_page set_font multi_cell
                output_S content) as [(out & _ & R)|(e & _ & R)];
      [left; exists out|right; exists e]; exact R.
  - destruct (generate_cover_letter_pdf_cases pdf FPDF add_page set_font multi_cell
                output_S content) as [(out & _ & R)|(e & _ & R)];
      [left; exists out|right; exists e]; exact R.
Qed.

(** X12: the bytes [generate_pdf_report] returns are, one for one, the
    characters of a buffer [FPDF.output] gave, all of them in Latin-1. *)
Theorem generate_pdf_report_bytes (content : text) (out : list byte) :
  snd (report_pdf content) = Returns (Some out) ->
  exists doc,
    output_S doc = inr (map Byte.to_N out) /\
    (forall c, In c (map Byte.to_N out) -> (c <= 255)%N).
Proof.
  intros H.
  destruct (generate_pdf_report_cases pdf FPDF add_page set_font multi_cell
              output_S content) as [(o & D & R)|(e & _ & R)];
    rewrite R in H; simpl in H; [|discriminate H].
  injection H as ->. unfold document_bytes in D.
  apply bind_returns in D. destruct D as (d0 & _ & D).
  apply bind_returns in D. destruct D as (d1 & _ & D).
  apply bind_returns in D. destruct D as (d2 & _ & D).
  apply bind_returns in D. destruct D as (d3 & _ & D).
  apply bind_returns in D. destruct D as (buffer & B & D).
  apply bind_returns in D. destruct D as (bytes & En & D).
  injection D as ->. apply call_returns in B.
  apply encode_latin1_bytes in En. exists d3. rewrite En. split; [exact B|].
  intros c I. rewrite <- En in I. apply in_map_iff in I.
  destruct I as (b & <- & _). apply Byte.to_N_bounded.
Qed.

Lemma score_outcome (t : text) :
  exists ms, extract_match_percentage t = Returns ms /\
             forall v, ms = Some v -> (0 <= v <= 100)%Z.
Proof.
  unfold extract_match_percentage.
  destruct (truthy t); [|exists None; split; [reflexivity|discriminate]].
  destruct (re_search false score_re t) as [m|] eqn:S;
    [|exists None; split; [reflexivity|discriminate]].
  apply re_search_some in S. destruct S as (p & q & _ & Hm & _).
  apply score_match_inv in Hm. destruct Hm as (ds & rest & _ & T & G).
  destruct (py_int_token ds T) as (v & Ev & Ei).
  exists (Some (Z.min v 100)). rewrite G.
  replace (py_int (Some ds)) with (@Returns Z v) by (symmetry; exact Ei).
  split; [reflexivity|]. intros w E. injection E as <-.
  pose proof (digits_value_nonneg ds 0 v Ev ltac:(lia)). lia.
Qed.

Lemma score_section_returns (t : text) :
  exists ms, extract_match_percentage t = Returns ms /\
             snd (score_section ms) = Returns tt.
Proof.
  destruct (score_outcome t) as (ms & E & R). exists ms. split; [exact E|].
  destruct ms as [v|]; [|reflexivity].
  rewrite (score_section_found v (R v eq_refl)). reflexivity.
Qed.

(** X13: when a match score [v] is found, the page shows, after what the
    report generator showed and the two headings, the score line, the
    progress bar and the bar chart for [v], and the score is from 0 to 100. *)
Theorem score_found_page (analysis : text) (v : Z) :
  extract_match_percentage analysis = Returns (Some v) ->
  (0 <= v <= 100)%Z /\
  exists after,
    fst (page_of (Some analysis))
    = fst (report_pdf analysis)
      ++ [StMarkdown (u "<hr>");
          StMarkdown (u "<h2 style='color: #3366cc;'>Analysis Report</h2>");
          StMarkdown
            (u "<p style='font-size: 1.8em; font-weight: bold; color:#2E7D32;'>Match Score: "
               ++ render_int v ++ u "%</p>");
          StProgress v;
          StPyplotBar (create_bar_chart v (u "Resume Match"))]
      ++ after.
Proof.
  intros Hs.
  assert (R : (0 <= v <= 100)%Z).
  { destruct (score_outcome analysis) as (ms & E & R).
    rewrite E in Hs. injection Hs as ->. exact (R v eq_refl). }
  split; [exact R|].
  assert (Ht : truthy analysis = true).
  { destruct analysis; [|reflexivity]. discriminate Hs. }
  rewrite (page_events pdf FPDF add_page set_font multi_cell output_S analysis (Some v) Ht Hs)
    by (rewrite (score_section_found v R); reflexivity).
  rewrite (score_section_found v R). cbn [fst].
  eexists. reflexivity.
Qed.

(** X14: when the script runs to its end, the last thing on the page is the
    report: the download button with exactly the bytes
    [generate_pdf_report] made from the whole analysis text, or the failure
    notice when it made none. *)
Theorem report_is_last (analysis : text) :
  truthy analysis = true ->
  snd (page_of (Some analysis)) = Returns tt ->
  exists before,
    fst (page_of (Some analysis))
    = before
      ++ [match snd (report_pdf analysis) with
          | Returns (Some (b :: data)) => REPORT_BUTTON (b :: data)
          | _ => StWarning (u "Failed to generate PDF report.")
          end].
Proof.
  intros Ht St.
  destruct (score_section_returns analysis) as (ms & Hs & Hsc).
  rewrite (page_events pdf FPDF add_page set_font multi_cell output_S analysis ms Ht Hs Hsc) in St |- *. cbn [fst snd] in St |- *.
  rewrite St.
  destruct (generate_pdf_report_cases pdf FPDF add_page set_font multi_cell
              output_S analysis) as [(out & _ & R)|(e & _ & R)];
    rewrite R; cbn [fst snd].
  - eexists. rewrite !app_assoc. f_equal. destruct out; reflexivity.
  - eexists. rewrite !app_assoc. f_equal.
Qed.

(** None of the events of a short explicit list is a score output. *)
Ltac no_score_output :=
  let e := fresh "e" in
  let H := fresh "H" in
  intros e H; simpl in H;
  repeat (destruct H as [<-|H]; [reflexivity|]);
  destruct H.

(** X15: a progress bar or a bar chart appears on the page only when a
    match score was found in the analysis text, and then it is the bar or
    the chart of that score, which is from 0 to 100. *)
Theorem score_outputs_on_page (analysis : text) (ev : event) :
  In ev (fst (page_of (Some analysis))) ->
  is_score_output ev = true ->
  exists v,
    extract_match_percentage analysis = Returns (Some v) /\
    (0 <= v <= 100)%Z /\
    (ev = StProgress v \/ ev = StPyplotBar (create_bar_chart v (u "Resume Match"))).
Proof.
  intros I S.
  assert (other : forall evs : list event,
             (forall e, In e evs -> is_score_output e = false) -> ~ In ev evs).
  { intros evs H J. rewrite (H ev J) in S. discriminate S. }
  destruct (truthy analysis) eqn:Ht;
    [|unfold show_analysis in I; rewrite Ht in I; destruct I as [<-|[]];
      discriminate S].
  destruct (score_outcome analysis) as (ms & Hs & R).
  assert (Hsc : snd (score_section ms) = Returns tt).
  { destruct ms as [v|]; [|reflexivity].
    rewrite (score_section_found v (R v eq_refl)). reflexivity. }
  rewrite (page_events pdf FPDF add_page set_font multi_cell output_S analysis ms Ht Hs Hsc) in I. cbn [fst] in I.
  apply in_app_or in I. destruct I as [I|I].
  { exfalso. revert I. apply other.
    destruct (generate_pdf_report_cases pdf FPDF add_page set_font multi_cell
                output_S analysis) as [(out & _ & E)|(e0 & _ & E)];
      rewrite E; no_score_output. }
  apply in_app_or in I. destruct I as [I|I].
  { exfalso. revert I. apply other. no_score_output. }
  apply in_app_or in I. destruct I as [I|I].
  { destruct ms as [v|].
    - exists v. split; [exact Hs|]. split; [exact (R v eq_refl)|].
      rewrite (score_section_found v (R v eq_refl)) in I. cbn [fst] in I.
      destruct I as [<-|[<-|[<-|[]]]];
        [discriminate S|left; reflexivity|right; reflexivity].
    - exfalso. revert I. apply other. no_score_output. }
  exfalso. apply in_app_or in I. destruct I as [I|I].
  { revert I. apply other. exact (proj1 (skills_section_events analysis)). }
  destruct (snd (skills_section analysis)); [|destruct I|destruct I].
  apply in_app_or in I. destruct I as [I|I].
  { revert I. apply other. no_score_output. }
  apply in_app_or in I. destruct I as [I|I].
  { revert I. apply other.
    exact (proj1 (cover_section_events pdf FPDF add_page set_font multi_cell
                    output_S analysis)). }
  destruct (snd (report_pdf analysis)) as [bytes| |]; [|destruct I|destruct I].
  revert I. apply other. exact (proj1 (report_section_events bytes)).
Qed.

(** *** Reading the PDF *)

Local Abbreviation read_step :=
  (fun (acc : outcome text) (pg : page) =>
     t <- acc ;; p <- call (get_text pg) ;; Returns (t ++ p)).

Lemma bind_call_inr (A B : Type) (a : A) (f : A -> outcome B) :
  bind (call (inr a)) f = f a.
Proof. reflexivity. Qed.

(** The loop over the pages, as it stands in a goal, put in the form the
    lemmas below are stated in. *)
Ltac fold_read_step :=
  match goal with
  | |- context [fold_left ?step ?pages (@Returns _ ?start)] =>
      change (fold_left step pages (@Returns _ start))
        with (fold_left read_step pages (@Returns text start))
  end.

Lemma read_fold_returns (doc : list page) (texts : list text) :
  Forall2 (fun p t => get_text p = inr t) doc texts ->
  forall t0, fold_left read_step doc (Returns t0) = Returns (t0 ++ concat texts).
Proof.
  induction 1 as [|p t doc texts E F IH]; intros t0; cbn [fold_left concat].
  - rewrite app_nil_r. reflexivity.
  - cbn [bind]. rewrite E. cbn [call bind]. rewrite IH, app_assoc. reflexivity.
Qed.

Lemma read_fold_raises (doc : list page) (e : exn) :
  fold_left read_step doc (Raises e) = Raises e.
Proof. induction doc as [|p doc IH]; [reflexivity|exact IH]. Qed.

Lemma read_fold_first_failure (pre post : list page) (p : page)
    (texts : list text) (e : exn) :
  Forall2 (fun p t => get_text p = inr t) pre texts ->
  get_text p = inl e ->
  fold_left read_step (pre ++ p :: post) (@Returns text []) = Raises e.
Proof.
  intros F G. rewrite fold_left_app, (read_fold_returns pre texts F []).
  cbn [fold_left]. rewrite G.
  change (fold_left read_step post (Raises e) = Raises e).
  apply read_fold_raises.
Qed.

Lemma read_fold_cases (doc : list page) :
  forall init, modelled init ->
    (exists t, fold_left read_step doc init = Returns t) \/
    (exists e, fold_left read_step doc init = Raises e).
Proof.
  induction doc as [|p doc IH]; intros init M.
  - destruct init as [t|e|]; [left; exists t|right; exists e|contradiction M];
      reflexivity.
  - cbn [fold_left]. apply IH.
    destruct init as [t|e|]; [|discriminate|contradiction M; reflexivity].
    cbn [bind]. destruct (get_text p); discriminate.
Qed.

Lemma extract_text_from_pdf_cases (f : list byte) :
  (exists t, read_pdf f = ([], Returns (Some t))) \/
  (exists e, read_pdf f
             = ([StErrorExn (u "Error extracting text from PDF: ") e], Returns None)).
Proof.
  unfold extract_text_from_pdf.
  destruct (pymupdf_open f) as [e|doc]; [right; exists e; reflexivity|].
  rewrite bind_call_inr.
  fold_read_step.
  destruct (read_fold_cases doc (@Returns text []) ltac:(discriminate))
    as [(t & E)|(e & E)]; rewrite E.
  - left. exists t. reflexivity.
  - right. exists e. reflexivity.
Qed.

(** X16: when the document opens and every page gives its text,
    [extract_text_from_pdf] shows nothing and returns the texts of the pages
    put together in page order. *)
Theorem extract_text_from_pdf_concat (f : list byte) (doc : list page)
    (texts : list text) :
  pymupdf_open f = inr doc ->
  Forall2 (fun p t => get_text p = inr t) doc texts ->
  read_pdf f = ([], Returns (Some (concat texts))).
Proof.
  intros O F. unfold extract_text_from_pdf. rewrite O, bind_call_inr.
  fold_read_step. rewrite (read_fold_returns doc texts F []). reflexivity.
Qed.

(** X17: when opening the document raises, or the first page whose text
    cannot be read raises, [extract_text_from_pdf] shows that one exception
    and returns [None]: the text read before is dropped and the pages after
    are not read. *)
Theorem extract_text_from_pdf_failure (f : list byte) (e : exn) :
  (pymupdf_open f = inl e \/
   exists pre p post texts,
     pymupdf_open f = inr (pre ++ p :: post) /\
     Forall2 (fun p t => get_text p = inr t) pre texts /\
     get_text p = inl e) ->
  read_pdf f = ([StErrorExn (u "Error extracting text from PDF: ") e], Returns None).
Proof.
  intros [O|(pre & p & post & texts & O & F & G)];
    unfold extract_text_from_pdf; rewrite O; [reflexivity|].
  rewrite bind_call_inr. fold_read_step.
  rewrite (read_fold_first_failure pre post p texts e F G). reflexivity.
Qed.

(** *** Asking the model *)

Lemma analyze_resume_cases (r j : text) :
  (exists t, ask_model r j = ([], Returns (Some t))) \/
  (exists e, ask_model r j
             = ([StErrorExn (u "Error analyzing resume: ") e], Returns None)).
Proof.
  unfold analyze_resume.
  destruct (GenerativeModel (u "gemini-2.0-flash")) as [e|m];
    [right; exists e; reflexivity|]. cbn [call bind].
  destruct (generate_content m (build_prompt PROMPT r j)) as [e|resp];
    [right; exists e; reflexivity|]. cbn [call bind].
  destruct (response_text resp) as [e|t];
    [right; exists e; reflexivity|].
  left. exists t. reflexivity.
Qed.

(** X18: [analyze_resume] returns a text exactly when the model named
    gemini-2.0-flash is made, answers the prompt built from the resume and
    the job description, and the answer has a text; that text is what it
    returns, and it shows nothing.  In every other case it shows one error
    message and returns [None]. *)
Theorem analyze_resume_answer (r j : text) :
  (forall t,
     snd (ask_model r j) = Returns (Some t) <->
     exists m resp,
       GenerativeModel (u "gemini-2.0-flash") = inr m /\
       generate_content m (build_prompt PROMPT r j) = inr resp /\
       response_text resp = inr t) /\
  ((exists t, ask_model r j = ([], Returns (Some t))) \/
   (exists e, ask_model r j
              = ([StErrorExn (u "Error analyzing resume: ") e], Returns None))).
Proof.
  split; [|apply analyze_resume_cases].
  intros t. unfold analyze_resume. split.
  - destruct (GenerativeModel (u "gemini-2.0-flash")) as [e|m] eqn:G;
      [discriminate|]. cbn [call bind].
    destruct (generate_content m (build_prompt PROMPT r j)) as [e|resp] eqn:C;
      [discriminate|]. cbn [call bind].
    destruct (response_text resp) as [e|t'] eqn:T; [discriminate|].
    intros H. injection H as <-. exists m, resp. repeat split; assumption.
  - intros (m & resp & G & C & T). rewrite G. cbn [call bind].
    rewrite C. cbn [call bind]. rewrite T. reflexivity.
Qed.

(** *** The main area *)

(** X19: the main area runs to its end for every state of the button, every
    upload and job description and every behaviour of pymupdf, of the model
    and of FPDF, with one exception: a run in which the skills block of the
    answer leaves the modelled part of [eval] and of the chart, about which
    nothing is said. *)
Theorem main_area_completes (analyze_button : bool)
    (uploaded_file : option (list byte)) (job_description : text) :
  snd (main analyze_button uploaded_file job_description) = Returns tt \/
  exists f resume answer,
    uploaded_file = Some f /\
    snd (read_pdf f) = Returns (Some resume) /\
    snd (ask_model resume job_description) = Returns (Some answer) /\
    snd (skills_section answer) = Unmodelled /\
    snd (main analyze_button uploaded_file job_description) = Unmodelled.
Proof.
  unfold main_area. destruct uploaded_file as [f|]; [|left; reflexivity].
  destruct (analyze_button && truthy job_description); [|left; reflexivity].
  destruct (extract_text_from_pdf_cases f) as [(t & R)|(e0 & R)]; rewrite R;
    [|left; reflexivity].
  destruct t as [|c r]; [left; reflexivity|]. cbn [sbind app fst snd].
  destruct (analyze_resume_cases (c :: r) job_description) as [(a & A)|(e1 & A)];
    rewrite A; cbn [sbind app fst snd]; [|left; reflexivity].
  destruct (truthy a) eqn:Ht;
    [|left; unfold show_analysis; rewrite Ht; reflexivity].
  destruct (score_section_returns a) as (ms & Hs & Hsc).
  rewrite (page_events pdf FPDF add_page set_font multi_cell output_S a ms Ht Hs Hsc). cbn [snd].
  destruct (snd (skills_section a)) as [[]|e|] eqn:S.
  - left. reflexivity.
  - exfalso. exact (proj2 (skills_section_events a) e S).
  - right. exists f, (c :: r), a. rewrite R, A. cbn [snd].
    repeat split; try reflexivity. exact S.
Qed.

(** X20: with all three inputs given, when reading the PDF gives no text
    the main area ends with the warning and shows nothing else but the error
    of the reading, if there was one; the model is not asked and no document
    is made. *)
Theorem main_area_no_text (f : list byte) (job_description : text) :
  truthy job_description = true ->
  (forall c r, snd (read_pdf f) <> Returns (Some (c :: r))) ->
  main true (Some f) job_description
  = (fst (read_pdf f)
     ++ [StWarning (u "Failed to extract text from the uploaded PDF.")],
     Returns tt) /\
  (fst (read_pdf f) = [] \/
   exists e, fst (read_pdf f)
             = [StErrorExn (u "Error extracting text from PDF: ") e]).
Proof.
  intros J N. unfold main_area. rewrite J. cbn [andb].
  destruct (extract_text_from_pdf_cases f) as [(t & R)|(e0 & R)]; rewrite R in N |- *.
  - destruct t as [|c r]; [|contradiction (N c r); reflexivity].
    split; [reflexivity|left; reflexivity].
  - split; [reflexivity|right; exists e0; reflexivity].
Qed.

(** X21: with a resume text read, when the model gives no answer or an
    empty one the main area ends with the warning and shows nothing else but
    the error of the model call, if there was one: no score, no chart, no
    document. *)
Theorem main_area_no_answer (f : list byte) (job_description : text)
    (c : char) (r : text) :
  truthy job_description = true ->
  read_pdf f = ([], Returns (Some (c :: r))) ->
  (forall a b, snd (ask_model (c :: r) job_description) <> Returns (Some (a :: b))) ->
  main true (Some f) job_description
  = (fst (ask_model (c :: r) job_description)
     ++ [StWarning (u "Failed to analyze resume.")],
     Returns tt) /\
  (fst (ask_model (c :: r) job_description) = [] \/
   exists e, fst (ask_model (c :: r) job_description)
             = [StErrorExn (u "Error analyzing resume: ") e]).
Proof.
  intros J R N. unfold main_area. rewrite J, R. cbn [andb sbind app fst snd].
  destruct (analyze_resume_cases (c :: r) job_description) as [(a & A)|(e1 & A)];
    rewrite A in N |- *; cbn [sbind app fst snd].
  - destruct a as [|a b]; [|contradiction (N a b); reflexivity].
    split; [reflexivity|left; reflexivity].
  - split; [reflexivity|right; exists e1; reflexivity].
Qed.

(** X22: the whole run.  With all three inputs given, a document whose
    pages give texts that are not all empty, and a model that answers the
    prompt built from those texts and the job description, the main area
    shows exactly the page of that answer. *)
Theorem main_area_end_to_end (f : list byte) (job_description : text)
    (doc : list page) (texts : list text) (m : model) (resp : response)
    (answer : text) :
  truthy job_description = true ->
  pymupdf_open f = inr doc ->
  Forall2 (fun p t => get_text p = inr t) doc texts ->
  truthy (concat texts) = true ->
  GenerativeModel (u "gemini-2.0-flash") = inr m ->
  generate_content m (build_prompt PROMPT (concat texts) job_description) = inr resp ->
  response_text resp = inr answer ->
  main true (Some f) job_description = page_of (Some answer).
Proof.
  intros J O F T G C A. unfold main_area. rewrite J. cbn [andb].
  unfold extract_text_from_pdf. rewrite O, bind_call_inr. fold_read_step.
  rewrite (read_fold_returns doc texts F []).
  cbn [app bind lift try_except].
  destruct (concat texts) as [|c r] eqn:E; [discriminate T|].
  unfold lift at 1. cbn [sbind app fst snd]. unfold analyze_resume.
  rewrite G. cbn [call bind]. rewrite C. cbn [call bind]. rewrite A.
  cbn [call bind lift try_except sbind app fst snd].
  destruct (page_of (Some answer)); reflexivity.
Qed.

End Script.

(** X23: the prompt is one fixed template with three holes, filled as they
    are and in this order: the configured prompt (the word None when it is
    not set), the resume text and the job description.  Nothing else in the
    prompt depends on them. *)
Theorem build_prompt_template :
  exists a b c : text,
    forall (P : option text) (r j : text),
      build_prompt P r j
      = LF :: INDENT ++ format_env P ++ a ++ r ++ b ++ j ++ c.
Proof.
  exists (LF :: LF :: INDENT ++ u "Resume:" ++ LF :: INDENT),
         (LF :: LF :: INDENT ++ u "Job Description:" ++ LF :: INDENT),
         (LF :: LF :: join_lines (PROMPT_INSTRUCTIONS ++ [INDENT])).
  intros P r j. unfold build_prompt, PROMPT_INSTRUCTIONS.
  cbn [join_lines app]. repeat rewrite <- app_assoc. cbn [app].
  repeat rewrite <- app_assoc. reflexivity.
Qed.

End Parser.

(** * The theorems at concrete texts *)

Lemma ascii_percent_not_digit : ascii_digit_value PERCENT = None.
Proof. reflexivity. Qed.

Lemma ascii_digit_value_ascii (c : char) :
  is_ascii_digit c = true -> ascii_digit_value c = Some (Z.of_N c - 48)%Z.
Proof. intros H. unfold ascii_digit_value. rewrite H. reflexivity. Qed.

Example scenario_A_score :
  extract_match_percentage ascii_digit_value SCENARIO_A = Returns (Some 75%Z).
Proof. vm_compute. reflexivity. Qed.

Example scenario_A_skills :
  extractSkillScoreMap ascii_digit_value toy_bound SCENARIO_A
  = Some (Returns (VDict [(VStr (u "Python"), VInt 80); (VStr (u "SQL"), VInt 60)])).
Proof. vm_compute. reflexivity. Qed.

Example scenario_A_cover :
  extractCoverLetter ascii_digit_value SCENARIO_A = Some (u "Dear Hiring Manager...").
Proof. vm_compute. reflexivity. Qed.

Example clamp_above_100 :
  extract_match_percentage ascii_digit_value (u "about 250% better") = Returns (Some 100%Z).
Proof. vm_compute. reflexivity. Qed.

Example leftmost_after_long_run :
  extract_match_percentage ascii_digit_value (u "code 12345% then 7%") = Returns (Some 100%Z).
Proof. vm_compute. reflexivity. Qed.

Example eval_reads_numbers :
  safe_literal_parse (u "{'a': -5, 'b': 80.5, 'c': 1e3}")
  = Some [(u "a", VInt (-5)); (u "b", VFloat false 805 (-1));
          (u "c", VFloat false 1 3)] /\
  py_eval toy_bound (u "{'a': -5, 'b': 80.5, 'c': 1e3}")
  = Returns (VDict [(VStr (u "a"), VInt (-5));
                    (VStr (u "b"), VFloat false 805 (-1));
                    (VStr (u "c"), VFloat false 1 3)]).
Proof. split; vm_compute; reflexivity. Qed.

Example eval_unbound_name :
  py_eval toy_bound (u "{Python: 80, SQL: 60}") = Raises NameError.
Proof. vm_compute. reflexivity. Qed.

(** A call is outside the model: [exit()] raises [SystemExit], which
    [except Exception] does not catch. *)
Example eval_call_unmodelled :
  py_eval toy_bound (u "{exit()}") = Unmodelled.
Proof. vm_compute. reflexivity. Qed.

Lemma extract_match_percentage_leftmost_witness :
  extract_match_percentage ascii_digit_value (u "Match: 75% of 120%")
  = Returns (Some 75%Z).
Proof.
  apply (proj1 (extract_match_percentage_leftmost ascii_digit_value
                  ascii_percent_not_digit (u "Match: 75% of 120%"))
           (u "Match: ") (u "75") [7; 5]%Z).
  - split; [split; [simpl; lia|reflexivity]|].
    exists (u " of 120%"). reflexivity.
  - apply (token_after_nondigits ascii_digit_value 7). reflexivity.
  - repeat constructor.
Defined.

Lemma extract_match_percentage_absent_witness :
  extract_match_percentage ascii_digit_value (u "A strong profile, no score given.")
  = Returns None.
Proof.
  apply extract_match_percentage_absent.
  apply no_percent_no_token. apply not_in_check. vm_compute. reflexivity.
Defined.

(** C5 as stated fails: with the prefix ["1"], [n = 0] and an empty suffix
    the text is ["10%"] and the result is 10, not 0. *)
Lemma embedded_score_counterexample :
  ~ (forall (n : N) (pre suf : text),
       (n <= 100)%N ->
       extract_match_percentage ascii_digit_value
         (pre ++ render_nat n ++ PERCENT :: suf)
       = Returns (Some (Z.of_N n))).
Proof.
  intros H. specialize (H 0%N (u "1") [] ltac:(lia)).
  vm_compute in H. discriminate H.
Qed.

Lemma extract_match_percentage_embedded_witness :
  extract_match_percentage ascii_digit_value
    (u "Match: " ++ render_nat 75 ++ PERCENT :: u " fit")
  = Returns (Some (Z.of_N 75)).
Proof.
  apply (extract_match_percentage_embedded ascii_digit_value
           ascii_digit_value_ascii ascii_percent_not_digit).
  - vm_compute. discriminate.
  - apply no_percent_no_token. apply not_in_check. vm_compute. reflexivity.
  - intros p c E.
    change (u "Match: ") with (u "Match:" ++ [32%N]) in E.
    apply app_inj_tail in E. destruct E as [_ <-]. reflexivity.
Defined.

Lemma extractCoverLetter_spec_witness :
  extractCoverLetter ascii_digit_value SCENARIO_A = Some (u "Dear Hiring Manager...").
Proof.
  destruct (proj1 (proj2 (extractCoverLetter_spec ascii_digit_value)
                     SCENARIO_A_HEAD
                     (SCENARIO_A_LETTER ++ ATS_MARKER ++ SCENARIO_A_TAIL)
                     (starts_before_false COVER_LABEL SCENARIO_A
                        (length SCENARIO_A_HEAD) eq_refl))
              SCENARIO_A_LETTER ATS_MARKER SCENARIO_A_TAIL eq_refl
              (or_introl eq_refl)) as (c & E & T).
  - intros m' p' [-> | ->]; apply starts_before_false; vm_compute; reflexivity.
  - assert (C : c = u "Dear Hiring Manager...").
    { apply (trim_of_unique SCENARIO_A_LETTER); [exact T|].
      exists [LF], [LF]. split; [reflexivity|]. split; [reflexivity|].
      split; [reflexivity|]. split.
      - intros h y H. injection H as <- _. reflexivity.
      - intros y z H.
        change (u "Dear Hiring Manager...") with (u "Dear Hiring Manager.." ++ [46%N]) in H.
        apply app_inj_tail in H. destruct H as [_ <-]. reflexivity. }
    rewrite <- C. exact E.
Defined.

Lemma skills_block_line_break_witness :
  extractSkillScoreMap ascii_digit_value toy_bound (SKILLS_LABEL ++ [32%N] ++ TWO_LINE_PAYLOAD) = None.
Proof.
  refine (proj1 (proj2 (skills_block_line_break ascii_digit_value toy_bound []
                          [32%N] (u "'Python': 80,") (u " 'SQL': 60}") _ _) _)).
  - reflexivity.
  - apply not_in_check. vm_compute. reflexivity.
  - apply occurs_only_at. vm_compute. reflexivity.
Defined.




(** C9 as stated fails: with a library that writes the clock into the
    document, as FPDF does with the creation date, the report made when the
    clock reads 0 and the cover letter made from the same text when it reads
    1 are different byte streams. *)
Lemma generators_clock_counterexample :
  ~ (forall (content : text) (t1 t2 : N),
       snd (generate_pdf_report (inr []) (fun d => inr d) (fun _ _ d => inr d)
              toy_multi_cell (toy_output_at t1) content)
       = snd (generate_cover_letter_pdf (inr []) (fun d => inr d)
                (fun _ _ d => inr d) toy_multi_cell (toy_output_at t2) content)).
Proof.
  intros H. specialize (H (u "Dear Hiring Manager") 0%N 1%N).
  vm_compute in H. discriminate H.
Qed.

Lemma generators_agree_witness :
  generate_pdf_report (inr []) (fun d => inr d) (fun _ _ d => inr d)
    toy_multi_cell (toy_output_at 7) (u "Dear Sir," ++ LF :: u "I apply.")
  = ([], Returns (Some (map byte_of_ascii
                          (list_ascii_of_string "%PDF D:7 Dear Sir,I apply.")))) /\
  snd (generate_pdf_report (inr []) (fun d => inr d) (fun _ _ d => inr d)
         toy_multi_cell (toy_output_at 7) (u "Dear Sir," ++ LF :: u "I apply."))
  = snd (generate_cover_letter_pdf (inr []) (fun d => inr d) (fun _ _ d => inr d)
           toy_multi_cell (toy_output_at 7) (u "Dear Sir," ++ LF :: u "I apply.")).
Proof.
  assert (H : forall l, In l [u "Dear Sir,"; u "I apply."] -> ~ In LF l).
  { intros l [<-|[<-|[]]]; apply not_in_check; reflexivity. }
  destruct (generators_agree (list text) (inr []) (fun d => inr d)
              (fun _ _ d => inr d) toy_multi_cell toy_output_at
              (u "Dear Sir," ++ LF :: u "I apply.")
              [u "Dear Sir,"; u "I apply."] 7%N 7%N eq_refl
              ltac:(discriminate) H) as (R & _ & _ & _ & S).
  split.
  - rewrite R. vm_compute. reflexivity.
  - apply S. reflexivity.
Defined.

Lemma create_radar_chart_axes_witness :
  exists fig,
    create_radar_chart
      (VDict [(VStr (u "Python"), VInt 80); (VStr (u "SQL"), VInt 60)])
      (u "Skills Overview")
    = Returns (Some fig).
Proof.
  refine (proj2 (proj2 create_radar_chart_axes)
            [(VStr (u "Python"), VInt 80%Z); (VStr (u "SQL"), VInt 60%Z)]
            (u "Skills Overview") _ _ _).
  - discriminate.
  - reflexivity.
  - reflexivity.
Defined.


Example dash_text_page :
  show_analysis ascii_digit_value toy_bound (inr []) (fun d => inr d)
    (fun _ _ d => inr d) toy_multi_cell toy_output (Some DASH_TEXT)
  = ([StErrorExn (u "Error generating PDF report: ") UnicodeEncodeError;
      StMarkdown (u "<hr>");
      StMarkdown (u "<h2 style='color: #3366cc;'>Analysis Report</h2>");
      StWarning (u "Match score could not be calculated.");
      StInfo (u "No specific skills match found to visualize.");
      StMarkdown (u "<h3 style='color: #3366cc;'>Key Insights</h3>");
      StMarkdown DASH_TEXT;
      StWarning (u "Failed to generate PDF report.")],
     Returns tt).
Proof. vm_compute. reflexivity. Qed.

(** ** The further properties at concrete texts *)

Lemma ascii_digit_value_range (c : char) (d : Z) :
  ascii_digit_value c = Some d -> (0 <= d <= 9)%Z.
Proof.
  unfold ascii_digit_value, is_ascii_digit.
  destruct ((48 <=? c) && (c <=? 57))%N eqn:E; [|discriminate].
  intros H. injection H as <-. apply andb_prop in E. destruct E as [A B].
  apply N.leb_le in A. apply N.leb_le in B. lia.
Qed.

Lemma extract_match_percentage_range_witness :
  extract_match_percentage ascii_digit_value (u "about 250% better") = Returns None \/
  exists v,
    extract_match_percentage ascii_digit_value (u "about 250% better")
    = Returns (Some v) /\ (0 <= v <= 100)%Z.
Proof.
  apply (extract_match_percentage_range ascii_digit_value ascii_digit_value_range).
Defined.

Lemma extract_match_percentage_clamped_witness :
  extract_match_percentage ascii_digit_value
    (u "about " ++ render_nat 250 ++ PERCENT :: u " better")
  = Returns (Some (Z.min (Z.of_N 250) 100)).
Proof.
  apply (extract_match_percentage_clamped ascii_digit_value
           ascii_digit_value_ascii ascii_percent_not_digit).
  - vm_compute. discriminate.
  - apply no_percent_no_token. apply not_in_check. vm_compute. reflexivity.
  - intros p c E.
    change (u "about ") with (u "about" ++ [32%N]) in E.
    apply app_inj_tail in E. destruct E as [_ <-]. reflexivity.
Defined.

Lemma extract_match_percentage_long_run_witness :
  extract_match_percentage ascii_digit_value
    (u "code 1" ++ 50%N :: u "045" ++ PERCENT :: u " then 7%")
  = Returns (Some 45%Z).
Proof.
  apply (extract_match_percentage_long_run ascii_digit_value
           ascii_percent_not_digit (u "code 1") 50%N (u "045") (u " then 7%")
           [0; 4; 5]%Z).
  - apply no_percent_no_token. apply not_in_check. vm_compute. reflexivity.
  - reflexivity.
  - reflexivity.
  - repeat constructor.
Defined.

Lemma extractCoverLetter_stripped_witness :
  (forall a y, u "Dear Hiring Manager..." = a :: y -> is_space a = false) /\
  (forall y z, u "Dear Hiring Manager..." = y ++ [z] -> is_space z = false).
Proof.
  apply (extractCoverLetter_stripped ascii_digit_value SCENARIO_A).
  vm_compute. reflexivity.
Defined.

Lemma extractCoverLetter_substring_witness :
  exists pre ws post,
    SCENARIO_A = pre ++ COVER_LABEL ++ ws ++ u "Dear Hiring Manager..." ++ post /\
    forallb is_space ws = true /\
    (forall p, occurs_at COVER_LABEL SCENARIO_A p -> length pre <= length p).
Proof.
  apply (extractCoverLetter_substring ascii_digit_value).
  vm_compute. reflexivity.
Defined.

Lemma extractCoverLetter_no_marker_witness :
  ~ occurs_at ATS_MARKER (u "Dear Hiring Manager...") (u "Dear ") /\
  ~ occurs_at INTERVIEW_MARKER (u "Dear Hiring Manager...") [].
Proof.
  split;
    apply (extractCoverLetter_no_marker ascii_digit_value SCENARIO_A);
    solve [vm_compute; reflexivity | left; reflexivity | right; reflexivity].
Defined.

Lemma create_radar_chart_closed_witness :
  exists fig,
    create_radar_chart
      (VDict [(VStr (u "Python"), VInt 80); (VStr (u "SQL"), VInt 60)])
      (u "Skills Overview")
    = Returns (Some fig) /\
    radar_values fig = [VInt 80; VInt 60; VInt 80] /\
    length (radar_xticks fig) = 2.
Proof.
  eexists. split; [reflexivity|].
  pose proof (create_radar_chart_closed
                [(VStr (u "Python"), VInt 80%Z); (VStr (u "SQL"), VInt 60%Z)]
                (u "Skills Overview") _ eq_refl) as H.
  split; [reflexivity|].
  rewrite (proj1 (proj2 (proj2 (proj2 (proj2 H))))).
  rewrite (proj1 (proj2 (proj2 (proj2 (proj2 (proj2 H)))))). reflexivity.
Defined.

Lemma skills_section_empty_mapping_witness :
  skills_section ascii_digit_value toy_bound
    ((u "Match: 75%" ++ [LF]) ++ SKILLS_LABEL ++ [32%N] ++ [LBRACE; RBRACE]
     ++ LF :: u "Looks fine.")
  = ([], Returns tt).
Proof.
  apply (skills_section_empty_mapping ascii_digit_value toy_bound).
  - apply starts_before_false. vm_compute. reflexivity.
  - reflexivity.
Defined.

Lemma generate_pdf_report_bytes_witness :
  exists doc,
    toy_output doc
    = inr (map Byte.to_N (map byte_of_ascii (list_ascii_of_string "%PDFA strong profile."))) /\
    (forall c,
       In c (map Byte.to_N
               (map byte_of_ascii (list_ascii_of_string "%PDFA strong profile."))) ->
       (c <= 255)%N).
Proof.
  apply (generate_pdf_report_bytes (list text) (inr []) (fun d => inr d)
           (fun _ _ d => inr d) toy_multi_cell toy_output (u "A strong profile.")).
  vm_compute. reflexivity.
Defined.

Lemma score_found_page_witness :
  (0 <= 75 <= 100)%Z /\
  exists after,
    fst (show_analysis ascii_digit_value toy_bound (inr []) (fun d => inr d)
           (fun _ _ d => inr d) toy_multi_cell toy_output (Some (u "Match: 75%")))
    = fst (generate_pdf_report (inr []) (fun d => inr d) (fun _ _ d => inr d)
             toy_multi_cell toy_output (u "Match: 75%"))
      ++ [StMarkdown (u "<hr>");
          StMarkdown (u "<h2 style='color: #3366cc;'>Analysis Report</h2>");
          StMarkdown
            (u "<p style='font-size: 1.8em; font-weight: bold; color:#2E7D32;'>Match Score: "
               ++ render_int 75 ++ u "%</p>");
          StProgress 75;
          StPyplotBar (create_bar_chart 75 (u "Resume Match"))]
      ++ after.
Proof.
  apply (score_found_page ascii_digit_value toy_bound ascii_digit_value_range (list text)).
  vm_compute. reflexivity.
Defined.

Lemma report_is_last_witness :
  exists before,
    fst (show_analysis ascii_digit_value toy_bound (inr []) (fun d => inr d)
           (fun _ _ d => inr d) toy_multi_cell toy_output (Some (u "Match: 75%")))
    = before
      ++ [match snd (generate_pdf_report (inr []) (fun d => inr d)
                       (fun _ _ d => inr d) toy_multi_cell toy_output
                       (u "Match: 75%")) with
          | Returns (Some (b :: data)) => REPORT_BUTTON (b :: data)
          | _ => StWarning (u "Failed to generate PDF report.")
          end].
Proof.
  apply (report_is_last ascii_digit_value toy_bound ascii_digit_value_range (list text)).
  - reflexivity.
  - vm_compute. reflexivity.
Defined.

Lemma score_outputs_on_page_witness :
  exists v,
    extract_match_percentage ascii_digit_value (u "Match: 75%") = Returns (Some v) /\
    (0 <= v <= 100)%Z /\
    (StProgress 75 = StProgress v \/
     StProgress 75 = StPyplotBar (create_bar_chart v (u "Resume Match"))).
Proof.
  apply (score_outputs_on_page ascii_digit_value toy_bound ascii_digit_value_range
           (list text) (inr []) (fun d => inr d) (fun _ _ d => inr d)
           toy_multi_cell toy_output).
  - vm_compute. right. right. right. left. reflexivity.
  - reflexivity.
Defined.

Lemma extract_text_from_pdf_concat_witness :
  extract_text_from_pdf (option text) toy_open toy_get_text [x25]
  = ([], Returns (Some (concat [u "Jane Doe. "; u "Python, SQL."]))).
Proof.
  apply (extract_text_from_pdf_concat (option text) toy_open toy_get_text [x25]
           [Some (u "Jane Doe. "); Some (u "Python, SQL.")]).
  - reflexivity.
  - repeat constructor.
Defined.

Lemma extract_text_from_pdf_failure_witness :
  extract_text_from_pdf (option text)
    (fun _ => inr [Some (u "Jane Doe. "); None; Some (u "Python, SQL.")])
    toy_get_text [x25]
  = ([StErrorExn (u "Error extracting text from PDF: ") (LibraryError 3)],
     Returns None).
Proof.
  apply extract_text_from_pdf_failure. right.
  exists [Some (u "Jane Doe. ")], None, [Some (u "Python, SQL.")], [u "Jane Doe. "].
  split; [reflexivity|]. split; [repeat constructor|reflexivity].
Defined.

Lemma main_area_completes_witness :
  snd (main_area ascii_digit_value toy_bound (option text) toy_open toy_get_text None
         unit text toy_model toy_generate_content toy_response_text
         (list text) (inr []) (fun d => inr d) (fun _ _ d => inr d)
         toy_multi_cell toy_output true (Some [x25]) (u "Data engineer"))
  = Returns tt.
Proof.
  destruct (main_area_completes ascii_digit_value toy_bound ascii_digit_value_range
              (option text) toy_open toy_get_text None unit text toy_model
              toy_generate_content toy_response_text (list text) (inr [])
              (fun d => inr d) (fun _ _ d => inr d) toy_multi_cell toy_output
              true (Some [x25]) (u "Data engineer"))
    as [H|(f & resume & answer & _ & _ & _ & _ & H)].
  - exact H.
  - vm_compute in H. discriminate H.
Defined.

Lemma main_area_no_text_witness :
  main_area ascii_digit_value toy_bound (option text) toy_open toy_get_text None
    unit text toy_model toy_generate_content toy_response_text
    (list text) (inr []) (fun d => inr d) (fun _ _ d => inr d)
    toy_multi_cell toy_output true (Some []) (u "Data engineer")
  = (fst (extract_text_from_pdf (option text) toy_open toy_get_text [])
     ++ [StWarning (u "Failed to extract text from the uploaded PDF.")],
     Returns tt).
Proof.
  refine (proj1 (main_area_no_text ascii_digit_value toy_bound (option text) toy_open
                   toy_get_text None unit text toy_model toy_generate_content
                   toy_response_text (list text) (inr []) (fun d => inr d)
                   (fun _ _ d => inr d) toy_multi_cell toy_output []
                   (u "Data engineer") eq_refl _)).
  intros c r. vm_compute. discriminate.
Defined.

Lemma main_area_no_answer_witness :
  main_area ascii_digit_value toy_bound (option text) toy_open toy_get_text None
    unit text (fun _ => inl (LibraryError 4)) toy_generate_content
    toy_response_text (list text) (inr []) (fun d => inr d)
    (fun _ _ d => inr d) toy_multi_cell toy_output true (Some [x25])
    (u "Data engineer")
  = ([StErrorExn (u "Error analyzing resume: ") (LibraryError 4);
      StWarning (u "Failed to analyze resume.")],
     Returns tt).
Proof.
  refine (proj1 (main_area_no_answer ascii_digit_value toy_bound (option text) toy_open
                   toy_get_text None unit text (fun _ => inl (LibraryError 4))
                   toy_generate_content toy_response_text (list text) (inr [])
                   (fun d => inr d) (fun _ _ d => inr d) toy_multi_cell
                   toy_output [x25] (u "Data engineer")
                   74%N (u "ane Doe. Python, SQL.") eq_refl _ _)).
  - vm_compute. reflexivity.
  - intros a b. vm_compute. discriminate.
Defined.

Lemma main_area_end_to_end_witness :
  main_area ascii_digit_value toy_bound (option text) toy_open toy_get_text None
    unit text toy_model toy_generate_content toy_response_text
    (list text) (inr []) (fun d => inr d) (fun _ _ d => inr d)
    toy_multi_cell toy_output true (Some [x25]) (u "Data engineer")
  = show_analysis ascii_digit_value toy_bound (inr []) (fun d => inr d)
      (fun _ _ d => inr d) toy_multi_cell toy_output (Some (u "Match: 75%")).
Proof.
  apply (main_area_end_to_end ascii_digit_value toy_bound (option text) toy_open
           toy_get_text None unit text toy_model toy_generate_content
           toy_response_text (list text) (inr []) (fun d => inr d)
           (fun _ _ d => inr d) toy_multi_cell toy_output [x25]
           (u "Data engineer")
           [Some (u "Jane Doe. "); Some (u "Python, SQL.")]
           [u "Jane Doe. "; u "Python, SQL."] tt (u "Match: 75%")).
  - reflexivity.
  - reflexivity.
  - repeat constructor.
  - reflexivity.
  - reflexivity.
  - reflexivity.
  - reflexivity.
Defined.

Example whole_run_events :
  main_area ascii_digit_value toy_bound (option text) toy_open toy_get_text None
    unit text toy_model toy_generate_content toy_response_text
    (list text) (inr []) (fun d => inr d) (fun _ _ d => inr d)
    toy_multi_cell toy_output true (Some [x25]) (u "Data engineer")
  = ([StMarkdown (u "<hr>");
      StMarkdown (u "<h2 style='color: #3366cc;'>Analysis Report</h2>");
      StMarkdown
        (u "<p style='font-size: 1.8em; font-weight: bold; color:#2E7D32;'>Match Score: 75%</p>");
      StProgress 75;
      StPyplotBar (create_bar_chart 75 (u "Resume Match"));
      StInfo (u "No specific skills match found to visualize.");
      StMarkdown (u "<h3 style='color: #3366cc;'>Key Insights</h3>");
      StMarkdown (u "Match: 75%");
      REPORT_BUTTON (map byte_of_ascii (list_ascii_of_string "%PDFMatch: 75%"))],
     Returns tt).
Proof. vm_compute. reflexivity. Qed.
